(** * InheritanceAiFhe: a shallow embedding of the contract and its properties

    The development follows [contracts/Inheritance_AI_Fhe.sol].  Contract
    storage is a record, every external function is a transaction in a small
    state-and-revert monad that also collects the emitted events, and the
    [FHE] library the contract imports is an interface (a type class) with
    one symbolic implementation used to run concrete scenarios. *)

From Stdlib Require Import ZArith List Bool Lia.
From Stdlib Require Import Strings.Byte.
From stdpp Require Import base decidable tactics option functions numbers list.

Import ListNotations.
Local Open Scope Z_scope.

(** ** Machine integers *)

Module Uint.

Definition MAX_UINT256 : Z := 2 ^ 256 - 1.
Definition MAX_ADDRESS : Z := 2 ^ 160 - 1.

Definition is_uint256 (x : Z) : Prop := 0 <= x <= MAX_UINT256.
Definition is_address (a : Z) : Prop := 0 <= a <= MAX_ADDRESS.

(** Truncation to the 32 bits an [euint32] carries. *)
Definition wrap32 (x : Z) : Z := x mod 2 ^ 32.

End Uint.
Export Uint.

Definition address : Type := Z.
Definition bytes : Type := list byte.

(** ** ABI words: 32 bytes, big endian *)

Module Abi.

Definition byte_of_Z (x : Z) : byte :=
  match Byte.of_N (Z.to_N (x mod 256)) with
  | Some b => b
  | None => x00
  end.

Definition Z_of_byte (b : byte) : Z := Z.of_N (Byte.to_N b).

(** [be_encode n x]: the [n] low-order bytes of [x], most significant first. *)
Fixpoint be_encode (n : nat) (x : Z) : bytes :=
  match n with
  | O => []
  | S k => be_encode k (x / 256) ++ [byte_of_Z x]
  end.

Definition be_decode (bs : bytes) : Z :=
  fold_left (fun acc b => acc * 256 + Z_of_byte b) bs 0.

Definition abi_encode_uint256 (x : Z) : bytes := be_encode 32 x.

(** [bs[from:to]]; out of range the slice reverts. *)
Definition slice (bs : bytes) (from to : nat) : option bytes :=
  if (to <=? length bs)%nat && (from <=? to)%nat
  then Some (firstn (to - from) (skipn from bs))
  else None.

(** [abi.decode(w, (uint256))] on a 32-byte word. *)
Definition abi_decode_uint256 (w : bytes) : option Z :=
  if (length w =? 32)%nat then Some (be_decode w) else None.

(** [abi.decode(w, (bool))]: the word has to be 0 or 1. *)
Definition abi_decode_bool (w : bytes) : option bool :=
  match abi_decode_uint256 w with
  | Some 0 => Some false
  | Some 1 => Some true
  | _ => None
  end.

End Abi.
Export Abi.

(** ** The encrypted-arithmetic library and the decryption oracle *)

Module FHE.

(** Modelled from the spec: the [FHE] library of [@fhevm/solidity] is imported
    by the contract and is not part of the repository.  The interface lists
    the operations the contract calls, with the signatures of the spec's
    external interfaces ([wrap], [max], [sub], [compareGE], [isInitialized],
    [serializeHandle], proof verification).  [euint32_unset] is the value of
    an [euint32] storage slot that was never written, [bytes32_zero] the
    value of a [bytes32] slot that was never written, and [decrypt] the
    cleartext word the oracle returns for a handle. *)
Class Lib : Type := {
  bytes32 : Type;
  bytes32_eq_dec :: EqDecision bytes32;
  bytes32_zero : bytes32;
  euint32 : Type;
  ebool : Type;
  euint32_unset : euint32;
  asEuint32 : Z -> euint32;
  max : euint32 -> euint32 -> euint32;
  sub : euint32 -> euint32 -> euint32;
  ge : euint32 -> euint32 -> ebool;
  isInitialized : euint32 -> bool;
  toBytes32 : euint32 -> bytes32;
  toBytes32_ebool : ebool -> bytes32;
  checkSignatures : Z -> bytes -> bytes -> bool;
  decrypt : bytes32 -> Z
}.

End FHE.

#[global] Existing Instance FHE.bytes32_eq_dec.

(** [keccak256(abi.encode(cts, addr))], the EVM primitive behind
    [_hashCiphertexts]. *)
Class Keccak256 (B : Type) : Type :=
  keccak256_abi_encode : list B -> address -> B.

(** ** Errors, events, call environment *)

Inductive Error : Type :=
  | NotOwner
  | NotProvider
  | Paused
  | CooldownActive
  | BatchClosedOrInvalid
  | InvalidThreshold
  | ReplayDetected
  | StateMismatch
  | DecryptionFailed
  | PanicOverflow      (* Panic(0x11): checked uint256 arithmetic *)
  | RevertDecode.      (* slice out of range or abi.decode failure *)

Inductive Event : Type :=
  | OwnershipTransferred (previousOwner newOwner : address)
  | ProviderAdded (provider : address)
  | ProviderRemoved (provider : address)
  | PauseToggled (paused : bool)
  | CooldownSecondsUpdated (oldCooldown newCooldown : Z)
  | BatchOpened (batchId : Z)
  | BatchClosed (batchId : Z)
  | SignalSubmitted (provider : address) (batchId : Z)
  | ThresholdSet (batchId : Z) (encryptedThreshold : Z)
  | DecryptionRequested (requestId : Z) (batchId : Z)
  | DecryptionCompleted (requestId : Z) (batchId : Z) (lastSignal : Z)
      (threshold : Z) (triggerInheritance : bool).

Record Env : Type := {
  msg_sender : address;
  block_timestamp : Z
}.

Inductive Result (A : Type) : Type :=
  | Ok (a : A)
  | Revert (e : Error).
Arguments Ok {A} a.
Arguments Revert {A} e.

Section Contract.

Context {L : FHE.Lib} {K : Keccak256 FHE.bytes32}.

(** [address(this)] *)
Variable this : address.

(** ** Storage *)

Record DecryptionContext : Type := {
  batchId : Z;
  stateHash : FHE.bytes32;
  processed : bool
}.

(** The last two fields are the library's own storage inside the contract.
    Modelled from the spec: submitting a handle list to the oracle yields a
    [requestId]; ids are handed out by a counter and the submitted handles
    are kept under the id. *)
Record State : Type := {
  owner : address;
  isProvider : address -> bool;
  paused : bool;
  cooldownSeconds : Z;
  lastSubmissionTime : address -> Z;
  lastDecryptionRequestTime : address -> Z;
  currentBatchId : Z;
  batchClosed : Z -> bool;
  decryptionContexts : Z -> DecryptionContext;
  encryptedLastSignalTimestamp : FHE.euint32;
  encryptedInactivityThreshold : FHE.euint32;
  counterRequest : Z;
  requestedHandles : Z -> list FHE.bytes32
}.

Definition set_owner (v : address) (s : State) : State :=
  {| owner := v; isProvider := isProvider s; paused := paused s;
     cooldownSeconds := cooldownSeconds s;
     lastSubmissionTime := lastSubmissionTime s;
     lastDecryptionRequestTime := lastDecryptionRequestTime s;
     currentBatchId := currentBatchId s; batchClosed := batchClosed s;
     decryptionContexts := decryptionContexts s;
     encryptedLastSignalTimestamp := encryptedLastSignalTimestamp s;
     encryptedInactivityThreshold := encryptedInactivityThreshold s;
     counterRequest := counterRequest s;
     requestedHandles := requestedHandles s |}.

Definition set_isProvider (v : address -> bool) (s : State) : State :=
  {| owner := owner s; isProvider := v; paused := paused s;
     cooldownSeconds := cooldownSeconds s;
     lastSubmissionTime := lastSubmissionTime s;
     lastDecryptionRequestTime := lastDecryptionRequestTime s;
     currentBatchId := currentBatchId s; batchClosed := batchClosed s;
     decryptionContexts := decryptionContexts s;
     encryptedLastSignalTimestamp := encryptedLastSignalTimestamp s;
     encryptedInactivityThreshold := encryptedInactivityThreshold s;
     counterRequest := counterRequest s;
     requestedHandles := requestedHandles s |}.

Definition set_paused (v : bool) (s : State) : State :=
  {| owner := owner s; isProvider := isProvider s; paused := v;
     cooldownSeconds := cooldownSeconds s;
     lastSubmissionTime := lastSubmissionTime s;
     lastDecryptionRequestTime := lastDecryptionRequestTime s;
     currentBatchId := currentBatchId s; batchClosed := batchClosed s;
     decryptionContexts := decryptionContexts s;
     encryptedLastSignalTimestamp := encryptedLastSignalTimestamp s;
     encryptedInactivityThreshold := encryptedInactivityThreshold s;
     counterRequest := counterRequest s;
     requestedHandles := requestedHandles s |}.

Definition set_cooldownSeconds (v : Z) (s : State) : State :=
  {| owner := owner s; isProvider := isProvider s; paused := paused s;
     cooldownSeconds := v;
     lastSubmissionTime := lastSubmissionTime s;
     lastDecryptionRequestTime := lastDecryptionRequestTime s;
     currentBatchId := currentBatchId s; batchClosed := batchClosed s;
     decryptionContexts := decryptionContexts s;
     encryptedLastSignalTimestamp := encryptedLastSignalTimestamp s;
     encryptedInactivityThreshold := encryptedInactivityThreshold s;
     counterRequest := counterRequest s;
     requestedHandles := requestedHandles s |}.

Definition set_lastSubmissionTime (v : address -> Z) (s : State) : State :=
  {| owner := owner s; isProvider := isProvider s; paused := paused s;
     cooldownSeconds := cooldownSeconds s;
     lastSubmissionTime := v;
     lastDecryptionRequestTime := lastDecryptionRequestTime s;
     currentBatchId := currentBatchId s; batchClosed := batchClosed s;
     decryptionContexts := decryptionContexts s;
     encryptedLastSignalTimestamp := encryptedLastSignalTimestamp s;
     encryptedInactivityThreshold := encryptedInactivityThreshold s;
     counterRequest := counterRequest s;
     requestedHandles := requestedHandles s |}.

Definition set_lastDecryptionRequestTime (v : address -> Z) (s : State) : State :=
  {| owner := owner s; isProvider := isProvider s; paused := paused s;
     cooldownSeconds := cooldownSeconds s;
     lastSubmissionTime := lastSubmissionTime s;
     lastDecryptionRequestTime := v;
     currentBatchId := currentBatchId s; batchClosed := batchClosed s;
     decryptionContexts := decryptionContexts s;
     encryptedLastSignalTimestamp := encryptedLastSignalTimestamp s;
     encryptedInactivityThreshold := encryptedInactivityThreshold s;
     counterRequest := counterRequest s;
     requestedHandles := requestedHandles s |}.

Definition set_currentBatchId (v : Z) (s : State) : State :=
  {| owner := owner s; isProvider := isProvider s; paused := paused s;
     cooldownSeconds := cooldownSeconds s;
     lastSubmissionTime := lastSubmissionTime s;
     lastDecryptionRequestTime := lastDecryptionRequestTime s;
     currentBatchId := v; batchClosed := batchClosed s;
     decryptionContexts := decryptionContexts s;
     encryptedLastSignalTimestamp := encryptedLastSignalTimestamp s;
     encryptedInactivityThreshold := encryptedInactivityThreshold s;
     counterRequest := counterRequest s;
     requestedHandles := requestedHandles s |}.

Definition set_batchClosed (v : Z -> bool) (s : State) : State :=
  {| owner := owner s; isProvider := isProvider s; paused := paused s;
     cooldownSeconds := cooldownSeconds s;
     lastSubmissionTime := lastSubmissionTime s;
     lastDecryptionRequestTime := lastDecryptionRequestTime s;
     currentBatchId := currentBatchId s; batchClosed := v;
     decryptionContexts := decryptionContexts s;
     encryptedLastSignalTimestamp := encryptedLastSignalTimestamp s;
     encryptedInactivityThreshold := encryptedInactivityThreshold s;
     counterRequest := counterRequest s;
     requestedHandles := requestedHandles s |}.

Definition set_decryptionContexts (v : Z -> DecryptionContext) (s : State) : State :=
  {| owner := owner s; isProvider := isProvider s; paused := paused s;
     cooldownSeconds := cooldownSeconds s;
     lastSubmissionTime := lastSubmissionTime s;
     lastDecryptionRequestTime := lastDecryptionRequestTime s;
     currentBatchId := currentBatchId s; batchClosed := batchClosed s;
     decryptionContexts := v;
     encryptedLastSignalTimestamp := encryptedLastSignalTimestamp s;
     encryptedInactivityThreshold := encryptedInactivityThreshold s;
     counterRequest := counterRequest s;
     requestedHandles := requestedHandles s |}.

Definition set_encryptedLastSignalTimestamp (v : FHE.euint32) (s : State) : State :=
  {| owner := owner s; isProvider := isProvider s; paused := paused s;
     cooldownSeconds := cooldownSeconds s;
     lastSubmissionTime := lastSubmissionTime s;
     lastDecryptionRequestTime := lastDecryptionRequestTime s;
     currentBatchId := currentBatchId s; batchClosed := batchClosed s;
     decryptionContexts := decryptionContexts s;
     encryptedLastSignalTimestamp := v;
     encryptedInactivityThreshold := encryptedInactivityThreshold s;
     counterRequest := counterRequest s;
     requestedHandles := requestedHandles s |}.

Definition set_encryptedInactivityThreshold (v : FHE.euint32) (s : State) : State :=
  {| owner := owner s; isProvider := isProvider s; paused := paused s;
     cooldownSeconds := cooldownSeconds s;
     lastSubmissionTime := lastSubmissionTime s;
     lastDecryptionRequestTime := lastDecryptionRequestTime s;
     currentBatchId := currentBatchId s; batchClosed := batchClosed s;
     decryptionContexts := decryptionContexts s;
     encryptedLastSignalTimestamp := encryptedLastSignalTimestamp s;
     encryptedInactivityThreshold := v;
     counterRequest := counterRequest s;
     requestedHandles := requestedHandles s |}.

Definition set_oracle (c : Z) (h : Z -> list FHE.bytes32) (s : State) : State :=
  {| owner := owner s; isProvider := isProvider s; paused := paused s;
     cooldownSeconds := cooldownSeconds s;
     lastSubmissionTime := lastSubmissionTime s;
     lastDecryptionRequestTime := lastDecryptionRequestTime s;
     currentBatchId := currentBatchId s; batchClosed := batchClosed s;
     decryptionContexts := decryptionContexts s;
     encryptedLastSignalTimestamp := encryptedLastSignalTimestamp s;
     encryptedInactivityThreshold := encryptedInactivityThreshold s;
     counterRequest := c;
     requestedHandles := h |}.

(** Storage before the constructor runs: every slot holds its zero value. *)
Definition zero_context : DecryptionContext :=
  {| batchId := 0; stateHash := FHE.bytes32_zero; processed := false |}.

Definition zero_state : State :=
  {| owner := 0; isProvider := fun _ => false; paused := false;
     cooldownSeconds := 0;
     lastSubmissionTime := fun _ => 0;
     lastDecryptionRequestTime := fun _ => 0;
     currentBatchId := 0; batchClosed := fun _ => false;
     decryptionContexts := fun _ => zero_context;
     encryptedLastSignalTimestamp := FHE.euint32_unset;
     encryptedInactivityThreshold := FHE.euint32_unset;
     counterRequest := 0;
     requestedHandles := fun _ => [] |}.

(** ** Transactions: state, revert and event log *)

Definition Tx (A : Type) : Type := State -> Result (A * State * list Event).

Definition tx_ret {A} (a : A) : Tx A := fun s => Ok (a, s, []).

Definition tx_bind {A B} (f : A -> Tx B) (m : Tx A) : Tx B :=
  fun s =>
    match m s with
    | Ok (a, s1, ev1) =>
        match f a s1 with
        | Ok (b, s2, ev2) => Ok (b, s2, ev1 ++ ev2)
        | Revert e => Revert e
        end
    | Revert e => Revert e
    end.

#[export] Instance Tx_ret : MRet Tx := @tx_ret.
#[export] Instance Tx_bind : MBind Tx := @tx_bind.

Definition get : Tx State := fun s => Ok (s, s, []).
Definition modify (f : State -> State) : Tx unit := fun s => Ok (tt, f s, []).
Definition emit (e : Event) : Tx unit := fun s => Ok (tt, s, [e]).
Definition revert {A} (e : Error) : Tx A := fun _ => Revert e.

(** [if (c) revert e();] *)
Definition revert_if (c : bool) (e : Error) : Tx unit :=
  if c then revert e else mret tt.

(** Checked [uint256] addition of Solidity 0.8. *)
Definition checked_add (a b : Z) : Tx Z :=
  if a + b <=? MAX_UINT256 then mret (a + b) else revert PanicOverflow.

(** [abi.decode(bs[from:to], (T))] *)
Definition decode_slice {A} (bs : bytes) (from to : nat) (dec : bytes -> option A) : Tx A :=
  match slice bs from to with
  | Some w =>
      match dec w with
      | Some a => mret a
      | None => revert RevertDecode
      end
  | None => revert RevertDecode
  end.

(** ** Modifiers *)

Definition onlyOwner (env : Env) : Tx unit :=
  s ← get;
  revert_if (bool_decide (msg_sender env ≠ owner s)) NotOwner.

Definition onlyProvider (env : Env) : Tx unit :=
  s ← get;
  revert_if (negb (isProvider s (msg_sender env))) NotProvider.

Definition whenNotPaused : Tx unit :=
  s ← get;
  revert_if (paused s) Paused.

Definition checkSubmissionCooldown (env : Env) : Tx unit :=
  s ← get;
  deadline ← checked_add (lastSubmissionTime s (msg_sender env)) (cooldownSeconds s);
  revert_if (block_timestamp env <? deadline) CooldownActive.

Definition checkDecryptionCooldown (env : Env) : Tx unit :=
  s ← get;
  deadline ← checked_add (lastDecryptionRequestTime s (msg_sender env)) (cooldownSeconds s);
  revert_if (block_timestamp env <? deadline) CooldownActive.

(** ** Constructor and configuration *)

Definition constructor (env : Env) : Tx unit :=
  modify (set_owner (msg_sender env));;
  s ← get;
  modify (set_isProvider (<[owner s := true]> (isProvider s)));;
  emit (ProviderAdded (owner s));;
  modify (set_currentBatchId 1);;
  s ← get;
  emit (BatchOpened (currentBatchId s));;
  modify (set_cooldownSeconds 60).

Definition transferOwnership (env : Env) (newOwner : address) : Tx unit :=
  onlyOwner env;;
  s ← get;
  let previousOwner := owner s in
  modify (set_owner newOwner);;
  emit (OwnershipTransferred previousOwner newOwner).

Definition addProvider (env : Env) (provider : address) : Tx unit :=
  onlyOwner env;;
  s ← get;
  if negb (isProvider s provider) then
    modify (set_isProvider (<[provider := true]> (isProvider s)));;
    emit (ProviderAdded provider)
  else mret tt.

Definition removeProvider (env : Env) (provider : address) : Tx unit :=
  onlyOwner env;;
  s ← get;
  if isProvider s provider then
    modify (set_isProvider (<[provider := false]> (isProvider s)));;
    emit (ProviderRemoved provider)
  else mret tt.

Definition setPaused (env : Env) (_paused : bool) : Tx unit :=
  onlyOwner env;;
  modify (set_paused _paused);;
  emit (PauseToggled _paused).

Definition setCooldownSeconds (env : Env) (newCooldown : Z) : Tx unit :=
  onlyOwner env;;
  s ← get;
  let oldCooldown := cooldownSeconds s in
  modify (set_cooldownSeconds newCooldown);;
  emit (CooldownSecondsUpdated oldCooldown newCooldown).

(** ** Batch lifecycle *)

Definition openNewBatch (env : Env) : Tx unit :=
  onlyOwner env;;
  whenNotPaused;;
  s ← get;
  next ← checked_add (currentBatchId s) 1;
  modify (set_currentBatchId next);;
  s ← get;
  modify (set_batchClosed (<[currentBatchId s := false]> (batchClosed s)));;
  emit (BatchOpened (currentBatchId s)).

Definition closeCurrentBatch (env : Env) : Tx unit :=
  onlyOwner env;;
  whenNotPaused;;
  s ← get;
  modify (set_batchClosed (<[currentBatchId s := true]> (batchClosed s)));;
  emit (BatchClosed (currentBatchId s)).

(** ** Life signals and threshold *)

(** [target] is the function's own copy of the handle: the assignment
    rebinds that local, the function returns nothing, and no storage slot is
    written. *)
Definition _initIfNeeded (target value : FHE.euint32) : Tx unit :=
  let target := if negb (FHE.isInitialized target) then value else target in
  mret tt.

Definition submitLifeSignal (env : Env) (_encryptedTimestamp : Z) : Tx unit :=
  onlyProvider env;;
  whenNotPaused;;
  checkSubmissionCooldown env;;
  s ← get;
  revert_if (batchClosed s (currentBatchId s)) BatchClosedOrInvalid;;
  modify (set_lastSubmissionTime
            (<[msg_sender env := block_timestamp env]> (lastSubmissionTime s)));;
  let newTimestamp := FHE.asEuint32 _encryptedTimestamp in
  s ← get;
  _initIfNeeded (encryptedLastSignalTimestamp s) newTimestamp;;
  s ← get;
  modify (set_encryptedLastSignalTimestamp
            (FHE.max (encryptedLastSignalTimestamp s) newTimestamp));;
  emit (SignalSubmitted (msg_sender env) (currentBatchId s)).

Definition setInactivityThreshold (env : Env) (_encryptedThreshold : Z) : Tx unit :=
  onlyOwner env;;
  whenNotPaused;;
  let threshold := FHE.asEuint32 _encryptedThreshold in
  revert_if (negb (FHE.isInitialized threshold)) InvalidThreshold;;
  modify (set_encryptedInactivityThreshold threshold);;
  s ← get;
  emit (ThresholdSet (currentBatchId s) _encryptedThreshold).

(** ** Decryption request and callback *)

Definition _hashCiphertexts (cts : list FHE.bytes32) : FHE.bytes32 :=
  keccak256_abi_encode cts this.

(** Modelled from the spec: [FHE.requestDecryption] hands the handle list
    to the oracle and returns the request id. *)
Definition requestDecryption (cts : list FHE.bytes32) : Tx Z :=
  s ← get;
  let requestID := counterRequest s in
  modify (set_oracle (requestID + 1) (<[requestID := cts]> (requestedHandles s)));;
  mret requestID.

(** What an honest oracle answers for a handle list: the ABI words of the
    cleartexts, in order. *)
Definition oracle_cleartexts (hs : list FHE.bytes32) : bytes :=
  flat_map (fun h => abi_encode_uint256 (FHE.decrypt h)) hs.

Definition checkInheritanceTrigger (env : Env) : Tx unit :=
  whenNotPaused;;
  checkDecryptionCooldown env;;
  s ← get;
  revert_if (negb (FHE.isInitialized (encryptedLastSignalTimestamp s))
             || negb (FHE.isInitialized (encryptedInactivityThreshold s)))
            InvalidThreshold;;
  revert_if (batchClosed s (currentBatchId s)) BatchClosedOrInvalid;;
  modify (set_lastDecryptionRequestTime
            (<[msg_sender env := block_timestamp env]> (lastDecryptionRequestTime s)));;
  s ← get;
  let timeSinceLastSignal :=
    FHE.sub (FHE.asEuint32 (block_timestamp env)) (encryptedLastSignalTimestamp s) in
  let trigger := FHE.ge timeSinceLastSignal (encryptedInactivityThreshold s) in
  let cts := [FHE.toBytes32 (encryptedLastSignalTimestamp s);
              FHE.toBytes32 (encryptedInactivityThreshold s);
              FHE.toBytes32_ebool trigger] in
  let stateHash := _hashCiphertexts cts in
  requestId ← requestDecryption cts;
  s ← get;
  modify (set_decryptionContexts
            (<[requestId := {| batchId := currentBatchId s;
                               stateHash := stateHash;
                               processed := false |}]> (decryptionContexts s)));;
  emit (DecryptionRequested requestId (currentBatchId s)).

Definition set_processed (c : DecryptionContext) : DecryptionContext :=
  {| batchId := batchId c; stateHash := stateHash c; processed := true |}.

Definition myCallback (env : Env) (requestId : Z) (cleartexts proof : bytes) : Tx unit :=
  s ← get;
  revert_if (processed (decryptionContexts s requestId)) ReplayDetected;;
  let currentEncLastSignal := encryptedLastSignalTimestamp s in
  let currentEncThreshold := encryptedInactivityThreshold s in
  let currentEncTrigger :=
    FHE.ge (FHE.sub (FHE.asEuint32 (block_timestamp env)) currentEncLastSignal)
           currentEncThreshold in
  let cts := [FHE.toBytes32 currentEncLastSignal;
              FHE.toBytes32 currentEncThreshold;
              FHE.toBytes32_ebool currentEncTrigger] in
  let currentHash := _hashCiphertexts cts in
  revert_if (bool_decide (currentHash ≠ stateHash (decryptionContexts s requestId)))
            StateMismatch;;
  revert_if (negb (FHE.checkSignatures requestId cleartexts proof)) DecryptionFailed;;
  lastSignal ← decode_slice cleartexts 0 32 abi_decode_uint256;
  threshold ← decode_slice cleartexts 32 64 abi_decode_uint256;
  triggerInheritance ← decode_slice cleartexts 64 96 abi_decode_bool;
  modify (set_decryptionContexts
            (<[requestId := set_processed (decryptionContexts s requestId)]>
               (decryptionContexts s)));;
  s ← get;
  emit (DecryptionCompleted requestId (batchId (decryptionContexts s requestId))
          lastSignal threshold triggerInheritance).

(** ** External calls *)

Inductive Call : Type :=
  | TransferOwnership (newOwner : address)
  | AddProvider (provider : address)
  | RemoveProvider (provider : address)
  | SetPaused (_paused : bool)
  | SetCooldownSeconds (newCooldown : Z)
  | OpenNewBatch
  | CloseCurrentBatch
  | SubmitLifeSignal (_encryptedTimestamp : Z)
  | SetInactivityThreshold (_encryptedThreshold : Z)
  | CheckInheritanceTrigger
  | MyCallback (requestId : Z) (cleartexts proof : bytes).

Definition exec (env : Env) (c : Call) : Tx unit :=
  match c with
  | TransferOwnership newOwner => transferOwnership env newOwner
  | AddProvider provider => addProvider env provider
  | RemoveProvider provider => removeProvider env provider
  | SetPaused p => setPaused env p
  | SetCooldownSeconds n => setCooldownSeconds env n
  | OpenNewBatch => openNewBatch env
  | CloseCurrentBatch => closeCurrentBatch env
  | SubmitLifeSignal t => submitLifeSignal env t
  | SetInactivityThreshold t => setInactivityThreshold env t
  | CheckInheritanceTrigger => checkInheritanceTrigger env
  | MyCallback requestId cleartexts proof => myCallback env requestId cleartexts proof
  end.

(** A reverted call leaves the storage as it was. *)
Definition state_after {A} (r : Result (A * State * list Event)) (s : State) : State :=
  match r with
  | Ok (_, s', _) => s'
  | Revert _ => s
  end.

Definition step (env : Env) (c : Call) (s : State) : State :=
  state_after (exec env c s) s.

(** Senders, timestamps and arguments as the EVM delivers them: values of
    their Solidity types, and no transaction comes from the zero address. *)
Definition valid_env (env : Env) : Prop :=
  is_address (msg_sender env) /\ msg_sender env ≠ 0 /\ is_uint256 (block_timestamp env).

Definition valid_call (c : Call) : Prop :=
  match c with
  | TransferOwnership a | AddProvider a | RemoveProvider a => is_address a
  | SetCooldownSeconds n | SubmitLifeSignal n | SetInactivityThreshold n => is_uint256 n
  | MyCallback requestId _ _ => is_uint256 requestId
  | _ => True
  end.

Definition deploy (env : Env) : State := state_after (constructor env zero_state) zero_state.

(** The three handles both functions build, in their common order, from the
    block timestamp and the two stored values. *)
Definition ciphertexts (env : Env) (encLastSignal encThreshold : FHE.euint32)
  : list FHE.bytes32 :=
  [FHE.toBytes32 encLastSignal;
   FHE.toBytes32 encThreshold;
   FHE.toBytes32_ebool
     (FHE.ge (FHE.sub (FHE.asEuint32 (block_timestamp env)) encLastSignal) encThreshold)].

(** The storage a successful [checkInheritanceTrigger] leaves behind. *)
Definition after_check (env : Env) (s : State) : State :=
  let cts := ciphertexts env (encryptedLastSignalTimestamp s)
                         (encryptedInactivityThreshold s) in
  let rid := counterRequest s in
  set_decryptionContexts
    (<[rid := {| batchId := currentBatchId s;
                 stateHash := _hashCiphertexts cts;
                 processed := false |}]> (decryptionContexts s))
    (set_oracle (rid + 1) (<[rid := cts]> (requestedHandles s))
       (set_lastDecryptionRequestTime
          (<[msg_sender env := block_timestamp env]> (lastDecryptionRequestTime s)) s)).

(** The storage a successful [myCallback] leaves behind. *)
Definition after_callback (requestId : Z) (s : State) : State :=
  set_decryptionContexts
    (<[requestId := set_processed (decryptionContexts s requestId)]>
       (decryptionContexts s)) s.

(** Ids are handed out from 0 upwards, and a slot whose id was not handed
    out yet still holds the zero context. *)
Definition fresh_ids (s : State) : Prop :=
  0 <= counterRequest s
  /\ forall k, ~ (0 <= k < counterRequest s) -> decryptionContexts s k = zero_context.

(** The cleartext behind an encrypted integer. *)
Definition cleartext (e : FHE.euint32) : Z := FHE.decrypt (FHE.toBytes32 e).

(** A run of calls, first call first. *)
Definition steps (tr : list (Env * Call)) (s : State) : State :=
  fold_left (fun acc ec => step (fst ec) (snd ec) acc) tr s.

(** The functions guarded by [onlyOwner]. *)
Definition owner_only (c : Call) : bool :=
  match c with
  | SubmitLifeSignal _ | CheckInheritanceTrigger | MyCallback _ _ _ => false
  | _ => true
  end.

(** The three decoded fields of a callback's [cleartexts], when all three
    decodings go through. *)
Definition decode_cleartexts (cleartexts : bytes) : option (Z * Z * bool) :=
  match slice cleartexts 0 32, slice cleartexts 32 64, slice cleartexts 64 96 with
  | Some w0, Some w1, Some w2 =>
      match abi_decode_uint256 w0, abi_decode_uint256 w1, abi_decode_bool w2 with
      | Some lastSignal, Some threshold, Some trigger => Some (lastSignal, threshold, trigger)
      | _, _, _ => None
      end
  | _, _, _ => None
  end.

Inductive reachable : State -> Prop :=
  | reachable_deploy env :
      valid_env env -> reachable (deploy env)
  | reachable_step s env c :
      reachable s -> valid_env env -> valid_call c -> reachable (step env c s).

End Contract.

(** ** A symbolic implementation of the library

    Handles are terms: every operation yields the term that names it, the way
    the coprocessor derives a result handle from the operation and its
    operand handles, and [keccak256] is a free constructor.  [decrypt] gives
    a handle its cleartext in 32-bit arithmetic, an unset operand counting
    as 0. *)

Module Symbolic.

Inductive handle : Type :=
  | HZero
  | HTrivial (v : Z)
  | HMax (a b : handle)
  | HSub (a b : handle)
  | HGe (a b : handle)
  | HNil
  | HCons (h t : handle)
  | HKeccak (payload : handle) (addr : address).

#[export] Instance handle_eq_dec : EqDecision handle.
Proof. intros x y. unfold Decision. decide equality; apply Z.eq_dec. Defined.

Fixpoint decrypt (h : handle) : Z :=
  match h with
  | HTrivial v => wrap32 v
  | HMax a b => Z.max (decrypt a) (decrypt b)
  | HSub a b => wrap32 (decrypt a - decrypt b)
  | HGe a b => if decrypt b <=? decrypt a then 1 else 0
  | _ => 0
  end.

Definition isInitialized (h : handle) : bool := negb (bool_decide (h = HZero)).

(** The stand-in signature over [(requestId, cleartexts)] is the signed
    message itself. *)
Definition sign (requestId : Z) (cleartexts : bytes) : bytes :=
  abi_encode_uint256 requestId ++ cleartexts.

#[export] Instance byte_eq_decision : EqDecision byte := Byte.byte_eq_dec.

Definition checkSignatures (requestId : Z) (cleartexts proof : bytes) : bool :=
  bool_decide (proof = sign requestId cleartexts).

#[export] Instance lib : FHE.Lib := {|
  FHE.bytes32 := handle;
  FHE.bytes32_eq_dec := handle_eq_dec;
  FHE.bytes32_zero := HZero;
  FHE.euint32 := handle;
  FHE.ebool := handle;
  FHE.euint32_unset := HZero;
  FHE.asEuint32 := HTrivial;
  FHE.max := HMax;
  FHE.sub := HSub;
  FHE.ge := HGe;
  FHE.isInitialized := isInitialized;
  FHE.toBytes32 := fun h => h;
  FHE.toBytes32_ebool := fun h => h;
  FHE.checkSignatures := checkSignatures;
  FHE.decrypt := decrypt
|}.

#[export] Instance keccak : Keccak256 handle :=
  fun cts addr => HKeccak (fold_right HCons HNil cts) addr.

End Symbolic.

(** ** Concrete actors and states used to run the model *)

Module Scenario.

Import Symbolic.

Definition contract : address := 4096.
Definition alice : address := 10.
Definition bob : address := 11.

Definition at_ (sender : address) (now : Z) : Env :=
  {| msg_sender := sender; block_timestamp := now |}.

(** Alice deploys, submits a signal for time 1000 and sets the threshold 500. *)
Definition deployed : State := deploy (at_ alice 1).
Definition signalled : State := step contract (at_ alice 1000) (SubmitLifeSignal 1000) deployed.
Definition armed : State := step contract (at_ alice 1001) (SetInactivityThreshold 500) signalled.

(** Bob asks for the inactivity check at time 1600; the request gets id 0. *)
Definition requested : State := step contract (at_ bob 1600) CheckInheritanceTrigger armed.

(** The oracle's answer to request 0 and the proof that goes with it. *)
Definition answer : bytes := oracle_cleartexts (requestedHandles requested 0).
Definition answer_proof : bytes := sign 0 answer.

(** The callback arrives at the timestamp of the request. *)
Definition answered : State :=
  step contract (at_ bob 1600) (MyCallback 0 answer answer_proof) requested.

(** Or Alice signals again first, at time 1700. *)
Definition resignalled : State :=
  step contract (at_ alice 1700) (SubmitLifeSignal 1700) requested.

(** A request made one second before the threshold is reached. *)
Definition requested_early : State :=
  step contract (at_ bob 1499) CheckInheritanceTrigger armed.
Definition answer_early : bytes := oracle_cleartexts (requestedHandles requested_early 0).

(** Alice signals a timestamp that lies in the future, 5000 at time 1000, and
    the same threshold and request follow. *)
Definition armed_future : State :=
  step contract (at_ alice 1001) (SetInactivityThreshold 500)
    (step contract (at_ alice 1000) (SubmitLifeSignal 5000) deployed).
Definition requested_future : State :=
  step contract (at_ bob 1600) CheckInheritanceTrigger armed_future.
Definition answer_future : bytes :=
  oracle_cleartexts (requestedHandles requested_future 0).

(** Alice opens a second batch. *)
Definition opened : State := step contract (at_ alice 5) OpenNewBatch deployed.

(** Alice pauses the freshly deployed contract: nothing is initialized yet. *)
Definition paused_unset : State := step contract (at_ alice 2) (SetPaused true) deployed.

(** After her signal at time 1000 Alice sets the largest cooldown there is. *)
Definition overflowing : State :=
  step contract (at_ alice 1001) (SetCooldownSeconds MAX_UINT256) signalled.

(** Alice gives the ownership away to the zero address. *)
Definition renounced : State := step contract (at_ alice 2) (TransferOwnership 0) deployed.

End Scenario.

(** ** Further vocabulary for the properties of the calls *)

Section CallViews.

Context {L : FHE.Lib} {K : Keccak256 FHE.bytes32}.
Variable this : address.

(** The functions guarded by [whenNotPaused]. *)
Definition pausable (c : Call) : bool :=
  match c with
  | OpenNewBatch | CloseCurrentBatch | SubmitLifeSignal _
  | SetInactivityThreshold _ | CheckInheritanceTrigger => true
  | _ => false
  end.

(** The error a paused contract answers a [pausable] call with: the
    modifiers in front of [whenNotPaused] speak first. *)
Definition paused_error (env : Env) (c : Call) (s : State) : Error :=
  match c with
  | SubmitLifeSignal _ =>
      if isProvider s (msg_sender env) then Paused else NotProvider
  | CheckInheritanceTrigger => Paused
  | _ => if bool_decide (msg_sender env ≠ owner s) then NotOwner else Paused
  end.

(** A result with [f] applied to the storage it leaves. *)
Definition on_state {A} (f : State -> State) (r : Result (A * State * list Event))
  : Result (A * State * list Event) :=
  match r with
  | Ok (a, s, ev) => Ok (a, f s, ev)
  | Revert e => Revert e
  end.

(** The timestamps of the life signals a run gets accepted, first one first. *)
Fixpoint accepted_signals (tr : list (Env * Call)) (s : State) : list Z :=
  match tr with
  | [] => []
  | (env, c) :: tr' =>
      match c, exec this env c s with
      | SubmitLifeSignal t, Ok _ => t :: accepted_signals tr' (step this env c s)
      | _, _ => accepted_signals tr' (step this env c s)
      end
  end.

(** Closed flags sit on batches that were opened: ids from 1 to the current
    one. *)
Definition closed_in_range (s : State) : Prop :=
  1 <= currentBatchId s
  /\ forall k, batchClosed s k = true -> 1 <= k <= currentBatchId s.

(** Every stored number is a value of its Solidity type. *)
Definition storage_in_range (s : State) : Prop :=
  is_address (owner s)
  /\ is_uint256 (cooldownSeconds s)
  /\ is_uint256 (currentBatchId s)
  /\ (forall a, is_uint256 (lastSubmissionTime s a))
  /\ (forall a, is_uint256 (lastDecryptionRequestTime s a))
  /\ (forall k, is_uint256 (batchId (decryptionContexts s k))).

(** A request whose snapshot was taken on an aggregate that has been
    replaced since: [rank] orders the handles, the first handle of the
    snapshot ranks below the aggregate of today. *)
Definition stale (rank : FHE.bytes32 -> nat) (requestId : Z) (s : State) : Prop :=
  requestId < counterRequest s
  /\ processed (decryptionContexts s requestId) = false
  /\ exists h rest,
       stateHash (decryptionContexts s requestId) = _hashCiphertexts this (h :: rest)
       /\ (rank h < rank (FHE.toBytes32 (encryptedLastSignalTimestamp s)))%nat.

End CallViews.

(** The size of a symbolic handle. *)
Module SymbolicRank.

Import Symbolic.

Fixpoint size (h : handle) : nat :=
  match h with
  | HMax a b | HSub a b | HGe a b | HCons a b => S (size a + size b)
  | HKeccak payload _ => S (size payload)
  | _ => 1%nat
  end.

End SymbolicRank.

(** More scenario states. *)
Module Scenario2.

Import Symbolic Scenario.

Definition carol : address := 12.

(** Alice hands the ownership to Bob. *)
Definition handed_over : State :=
  step contract (at_ alice 2) (TransferOwnership bob) deployed.

(** Alice closes batch 1 right after deployment. *)
Definition closed : State := step contract (at_ alice 5) CloseCurrentBatch deployed.

(** Bob is made a provider after Alice's signal. *)
Definition two_providers : State :=
  step contract (at_ alice 1001) (AddProvider bob) signalled.

(** A second request, made by Carol once the first one was answered. *)
Definition requested_again : State :=
  step contract (at_ carol 1600) CheckInheritanceTrigger answered.

End Scenario2.

(** * Properties *)

(** ** Words and bytes *)

Module UintFacts.

Lemma wrap32_small x : 0 <= x < 2 ^ 32 -> wrap32 x = x.
Proof. intros Hx. unfold wrap32. apply Z.mod_small. exact Hx. Qed.

Lemma wrap32_range x : 0 <= wrap32 x < 2 ^ 32.
Proof. unfold wrap32. apply Z.mod_pos_bound. lia. Qed.

Lemma uint32_is_uint256 x : 0 <= x < 2 ^ 32 -> is_uint256 x.
Proof.
  intros [H0 H1]. split; [exact H0|].
  apply Z.le_trans with (2 ^ 32); [apply Z.lt_le_incl, H1|].
  vm_compute. discriminate.
Qed.

End UintFacts.
Export UintFacts.

Module AbiFacts.

Lemma Z_of_byte_of_Z x : Z_of_byte (byte_of_Z x) = x mod 256.
Proof.
  unfold Z_of_byte, byte_of_Z.
  assert (Hr : 0 <= x mod 256 < 256) by (apply Z.mod_pos_bound; lia).
  destruct (Byte.of_N (Z.to_N (x mod 256))) as [b|] eqn:E.
  - apply Byte.to_of_N in E. rewrite E. rewrite Z2N.id; lia.
  - apply Byte.of_N_None_iff in E. lia.
Qed.

Lemma be_decode_app bs b : be_decode (bs ++ [b]) = be_decode bs * 256 + Z_of_byte b.
Proof. unfold be_decode. rewrite fold_left_app. reflexivity. Qed.

Lemma length_be_encode n x : length (be_encode n x) = n.
Proof.
  revert x. induction n as [|n IH]; intros x; simpl; [reflexivity|].
  rewrite length_app, IH. simpl. lia.
Qed.

Lemma be_decode_encode n x : be_decode (be_encode n x) = x mod 256 ^ Z.of_nat n.
Proof.
  revert x. induction n as [|n IH]; intros x.
  - simpl. rewrite Z.mod_1_r. reflexivity.
  - cbn [be_encode]. rewrite be_decode_app, IH, Z_of_byte_of_Z.
    rewrite Nat2Z.inj_succ, Z.pow_succ_r by lia.
    assert (Hp : 0 < 256 ^ Z.of_nat n) by (apply Z.pow_pos_nonneg; lia).
    rewrite (Z.rem_mul_r x 256 (256 ^ Z.of_nat n)) by lia. lia.
Qed.

Lemma abi_decode_encode_uint256 x :
  is_uint256 x -> abi_decode_uint256 (abi_encode_uint256 x) = Some x.
Proof.
  intros [H0 H1]. unfold abi_decode_uint256, abi_encode_uint256.
  rewrite length_be_encode. simpl Nat.eqb.
  rewrite be_decode_encode. f_equal. apply Z.mod_small.
  unfold MAX_UINT256 in H1.
  change (256 ^ Z.of_nat 32) with (2 ^ 256). lia.
Qed.

End AbiFacts.
Export AbiFacts.

(** ** The transaction monad *)

Ltac tx_unfold :=
  unfold mbind, mret, Tx_bind, Tx_ret, tx_bind, tx_ret, get, modify, emit,
    revert_if, revert, checked_add in *.

Ltac tx_cases :=
  repeat match goal with
         | |- context [if ?c then _ else _] => destruct c eqn:?; simpl
         end.

(** ** One equation per external function

    Each function is rewritten as the ladder of its checks followed by its
    effect; the order of the rungs is the order in which the modifiers and
    the body run. *)

Section Equations.

Context {L : FHE.Lib} {K : Keccak256 FHE.bytes32}.
Variable this : address.

Lemma transferOwnership_eq env newOwner s :
  transferOwnership env newOwner s =
    if bool_decide (msg_sender env ≠ owner s) then Revert NotOwner
    else Ok (tt, set_owner newOwner s, [OwnershipTransferred (owner s) newOwner]).
Proof. unfold transferOwnership, onlyOwner. tx_unfold. simpl. tx_cases; reflexivity. Qed.

Lemma addProvider_eq env provider s :
  addProvider env provider s =
    if bool_decide (msg_sender env ≠ owner s) then Revert NotOwner
    else if negb (isProvider s provider)
    then Ok (tt, set_isProvider (<[provider := true]> (isProvider s)) s,
             [ProviderAdded provider])
    else Ok (tt, s, []).
Proof. unfold addProvider, onlyOwner. tx_unfold. simpl. tx_cases; reflexivity. Qed.

Lemma removeProvider_eq env provider s :
  removeProvider env provider s =
    if bool_decide (msg_sender env ≠ owner s) then Revert NotOwner
    else if isProvider s provider
    then Ok (tt, set_isProvider (<[provider := false]> (isProvider s)) s,
             [ProviderRemoved provider])
    else Ok (tt, s, []).
Proof. unfold removeProvider, onlyOwner. tx_unfold. simpl. tx_cases; reflexivity. Qed.

Lemma setPaused_eq env p s :
  setPaused env p s =
    if bool_decide (msg_sender env ≠ owner s) then Revert NotOwner
    else Ok (tt, set_paused p s, [PauseToggled p]).
Proof. unfold setPaused, onlyOwner. tx_unfold. simpl. tx_cases; reflexivity. Qed.

Lemma setCooldownSeconds_eq env n s :
  setCooldownSeconds env n s =
    if bool_decide (msg_sender env ≠ owner s) then Revert NotOwner
    else Ok (tt, set_cooldownSeconds n s, [CooldownSecondsUpdated (cooldownSeconds s) n]).
Proof. unfold setCooldownSeconds, onlyOwner. tx_unfold. simpl. tx_cases; reflexivity. Qed.

Lemma openNewBatch_eq env s :
  openNewBatch env s =
    if bool_decide (msg_sender env ≠ owner s) then Revert NotOwner
    else if paused s then Revert Paused
    else if currentBatchId s + 1 <=? MAX_UINT256
    then Ok (tt,
             set_batchClosed (<[currentBatchId s + 1 := false]> (batchClosed s))
               (set_currentBatchId (currentBatchId s + 1) s),
             [BatchOpened (currentBatchId s + 1)])
    else Revert PanicOverflow.
Proof.
  unfold openNewBatch, onlyOwner, whenNotPaused. tx_unfold. simpl. tx_cases; reflexivity.
Qed.

Lemma closeCurrentBatch_eq env s :
  closeCurrentBatch env s =
    if bool_decide (msg_sender env ≠ owner s) then Revert NotOwner
    else if paused s then Revert Paused
    else Ok (tt, set_batchClosed (<[currentBatchId s := true]> (batchClosed s)) s,
             [BatchClosed (currentBatchId s)]).
Proof.
  unfold closeCurrentBatch, onlyOwner, whenNotPaused. tx_unfold. simpl. tx_cases; reflexivity.
Qed.

Lemma _initIfNeeded_eq target value s : _initIfNeeded target value s = Ok (tt, s, []).
Proof. reflexivity. Qed.

Lemma submitLifeSignal_eq env t s :
  submitLifeSignal env t s =
    if negb (isProvider s (msg_sender env)) then Revert NotProvider
    else if paused s then Revert Paused
    else if lastSubmissionTime s (msg_sender env) + cooldownSeconds s <=? MAX_UINT256
    then
      if block_timestamp env <? lastSubmissionTime s (msg_sender env) + cooldownSeconds s
      then Revert CooldownActive
      else if batchClosed s (currentBatchId s) then Revert BatchClosedOrInvalid
      else Ok (tt,
               set_encryptedLastSignalTimestamp
                 (FHE.max (encryptedLastSignalTimestamp s) (FHE.asEuint32 t))
                 (set_lastSubmissionTime
                    (<[msg_sender env := block_timestamp env]> (lastSubmissionTime s)) s),
               [SignalSubmitted (msg_sender env) (currentBatchId s)])
    else Revert PanicOverflow.
Proof.
  unfold submitLifeSignal, onlyProvider, whenNotPaused, checkSubmissionCooldown, _initIfNeeded.
  tx_unfold. simpl. tx_cases; reflexivity.
Qed.

Lemma setInactivityThreshold_eq env t s :
  setInactivityThreshold env t s =
    if bool_decide (msg_sender env ≠ owner s) then Revert NotOwner
    else if paused s then Revert Paused
    else if negb (FHE.isInitialized (FHE.asEuint32 t)) then Revert InvalidThreshold
    else Ok (tt, set_encryptedInactivityThreshold (FHE.asEuint32 t) s,
             [ThresholdSet (currentBatchId s) t]).
Proof.
  unfold setInactivityThreshold, onlyOwner, whenNotPaused. tx_unfold. simpl.
  tx_cases; reflexivity.
Qed.

Lemma checkInheritanceTrigger_eq env s :
  checkInheritanceTrigger this env s =
    if paused s then Revert Paused
    else if lastDecryptionRequestTime s (msg_sender env) + cooldownSeconds s <=? MAX_UINT256
    then
      if block_timestamp env
           <? lastDecryptionRequestTime s (msg_sender env) + cooldownSeconds s
      then Revert CooldownActive
      else if negb (FHE.isInitialized (encryptedLastSignalTimestamp s))
              || negb (FHE.isInitialized (encryptedInactivityThreshold s))
      then Revert InvalidThreshold
      else if batchClosed s (currentBatchId s) then Revert BatchClosedOrInvalid
      else Ok (tt, after_check this env s,
               [DecryptionRequested (counterRequest s) (currentBatchId s)])
    else Revert PanicOverflow.
Proof.
  unfold checkInheritanceTrigger, whenNotPaused, checkDecryptionCooldown,
    requestDecryption, after_check.
  tx_unfold. simpl. tx_cases; reflexivity.
Qed.

Lemma myCallback_eq env requestId cleartexts proof s :
  myCallback this env requestId cleartexts proof s =
    if processed (decryptionContexts s requestId) then Revert ReplayDetected
    else if bool_decide
              (_hashCiphertexts this
                 (ciphertexts env (encryptedLastSignalTimestamp s)
                    (encryptedInactivityThreshold s))
               ≠ stateHash (decryptionContexts s requestId))
    then Revert StateMismatch
    else if negb (FHE.checkSignatures requestId cleartexts proof)
    then Revert DecryptionFailed
    else match decode_cleartexts cleartexts with
         | Some (lastSignal, threshold, trigger) =>
             Ok (tt, after_callback requestId s,
                 [DecryptionCompleted requestId
                    (batchId (decryptionContexts s requestId))
                    lastSignal threshold trigger])
         | None => Revert RevertDecode
         end.
Proof.
  unfold myCallback, decode_cleartexts, decode_slice, after_callback, ciphertexts.
  tx_unfold. simpl. tx_cases; try reflexivity.
  destruct (slice cleartexts 0 32) as [w0|]; simpl; [|reflexivity].
  destruct (abi_decode_uint256 w0) as [x0|]; simpl;
    [|destruct (slice cleartexts 32 64), (slice cleartexts 64 96); reflexivity].
  destruct (slice cleartexts 32 64) as [w1|]; simpl; [|reflexivity].
  destruct (abi_decode_uint256 w1) as [x1|]; simpl;
    [|destruct (slice cleartexts 64 96); reflexivity].
  destruct (slice cleartexts 64 96) as [w2|]; simpl; [|reflexivity].
  destruct (abi_decode_bool w2) as [b|]; simpl; [|reflexivity].
  rewrite fn_lookup_insert. reflexivity.
Qed.

End Equations.

(** ** Frame lemmas for single steps *)

Ltac exec_eq :=
  unfold step, exec;
  first [ rewrite transferOwnership_eq | rewrite addProvider_eq
        | rewrite removeProvider_eq | rewrite setPaused_eq
        | rewrite setCooldownSeconds_eq | rewrite openNewBatch_eq
        | rewrite closeCurrentBatch_eq | rewrite submitLifeSignal_eq
        | rewrite setInactivityThreshold_eq | rewrite checkInheritanceTrigger_eq
        | rewrite myCallback_eq ].

Ltac step_cases c :=
  destruct c; exec_eq; tx_cases;
  try match goal with
      | |- context [decode_cleartexts ?x] =>
          destruct (decode_cleartexts x) as [[[? ?] ?]|]
      end;
  unfold after_check, after_callback; simpl.

Section StepFacts.

Context {L : FHE.Lib} {K : Keccak256 FHE.bytes32}.
Variable this : address.

Lemma step_owner env c s :
  msg_sender env ≠ owner s -> owner (step this env c s) = owner s.
Proof.
  intros Hne. step_cases c; try reflexivity.
  match goal with
  | H : bool_decide (_ ≠ _) = false |- _ => apply bool_decide_eq_false in H
  end.
  contradiction.
Qed.

Lemma step_owner_only_revert env c s :
  msg_sender env ≠ owner s -> owner_only c = true -> exec this env c s = Revert NotOwner.
Proof.
  intros Hne Hc.
  destruct c; try discriminate Hc; unfold exec;
    first [ rewrite transferOwnership_eq | rewrite addProvider_eq
          | rewrite removeProvider_eq | rewrite setPaused_eq
          | rewrite setCooldownSeconds_eq | rewrite openNewBatch_eq
          | rewrite closeCurrentBatch_eq | rewrite setInactivityThreshold_eq ];
    rewrite bool_decide_eq_true_2 by exact Hne; reflexivity.
Qed.

Lemma steps_owner_zero tr s :
  owner s = 0 ->
  Forall (fun ec => valid_env (fst ec)) tr ->
  owner (steps this tr s) = 0.
Proof.
  revert s. induction tr as [|[env c] tr IH]; intros s Hs Hv; [exact Hs|].
  inversion Hv as [|? ? Hv1 Hv2]; subst. simpl. apply IH; [|exact Hv2].
  rewrite step_owner; [exact Hs|].
  destruct Hv1 as (_ & Hnz & _). simpl in Hnz. rewrite Hs. exact Hnz.
Qed.

Lemma step_currentBatchId env c s :
  currentBatchId s <= currentBatchId (step this env c s).
Proof. step_cases c; lia. Qed.

Lemma steps_currentBatchId tr s :
  currentBatchId s <= currentBatchId (steps this tr s).
Proof.
  revert s. induction tr as [|[env c] tr IH]; intros s; simpl; [lia|].
  etransitivity; [apply (step_currentBatchId env c)|apply IH].
Qed.

End StepFacts.

(** ** Access control and configuration *)

Section AccessControl.

Context {L : FHE.Lib} {K : Keccak256 FHE.bytes32}.
Variable this : address.

(** C8: an owner call of [addProvider] on an address that is a provider, or
    of [removeProvider] on one that is not, succeeds with the storage as it
    was and no event; every other owner call of the two flips the provider
    flag of that address and emits the matching event. *)
Theorem provider_updates_idempotent env provider s
    (Hown : msg_sender env = owner s) :
  addProvider env provider s =
    (if isProvider s provider then Ok (tt, s, [])
     else Ok (tt, set_isProvider (<[provider := true]> (isProvider s)) s,
              [ProviderAdded provider]))
  /\ removeProvider env provider s =
    (if isProvider s provider
     then Ok (tt, set_isProvider (<[provider := false]> (isProvider s)) s,
              [ProviderRemoved provider])
     else Ok (tt, s, []))
  /\ (isProvider s provider = false ->
      isProvider (state_after (addProvider env provider s) s) provider = true)
  /\ (isProvider s provider = true ->
      isProvider (state_after (removeProvider env provider s) s) provider = false).
Proof.
  rewrite addProvider_eq, removeProvider_eq.
  rewrite bool_decide_eq_false_2 by (intros Hn; exact (Hn Hown)).
  destruct (isProvider s provider) eqn:Hp; simpl;
    repeat split; try reflexivity; try discriminate; intros _;
    apply fn_lookup_insert.
Qed.

(** C10: [transferOwnership] called by the owner writes the [owner] field and
    nothing else, so the provider flags of the previous and of the new owner
    are what they were; any [newOwner] is accepted, and once the owner is the
    zero address every later owner-only call from a real sender reverts with
    [NotOwner], over every run of calls. *)
Theorem transferOwnership_frame env newOwner s
    (Hown : msg_sender env = owner s) :
  transferOwnership env newOwner s =
    Ok (tt, set_owner newOwner s, [OwnershipTransferred (owner s) newOwner])
  /\ owner (set_owner newOwner s) = newOwner
  /\ isProvider (set_owner newOwner s) (owner s) = isProvider s (owner s)
  /\ isProvider (set_owner newOwner s) newOwner = isProvider s newOwner
  /\ (newOwner = 0 ->
      forall tr env' c,
        Forall (fun ec => valid_env (fst ec)) tr ->
        valid_env env' ->
        owner_only c = true ->
        owner (steps this tr (set_owner newOwner s)) = 0
        /\ exec this env' c (steps this tr (set_owner newOwner s)) = Revert NotOwner).
Proof.
  rewrite transferOwnership_eq.
  rewrite bool_decide_eq_false_2 by (intros Hn; exact (Hn Hown)).
  do 4 (split; [reflexivity|]).
  intros -> tr env' c Htr Henv Hc.
  assert (Hz : owner (steps this tr (set_owner 0 s)) = 0)
    by (apply steps_owner_zero; [reflexivity|exact Htr]).
  split; [exact Hz|].
  apply step_owner_only_revert; [|exact Hc].
  rewrite Hz. destruct Henv as (_ & Hnz & _). exact Hnz.
Qed.

End AccessControl.

(** ** Batch lifecycle *)

Section BatchLifecycle.

Context {L : FHE.Lib} {K : Keccak256 FHE.bytes32}.
Variable this : address.

(** C7: [currentBatchId] is 1 after the constructor and no call, and no run
    of calls, makes it smaller; every successful [openNewBatch] adds one to
    it and stores [false] as the closed flag of the new id; every successful
    [closeCurrentBatch] stores [true] as the closed flag of the current id
    and touches no other flag nor the id.  Both succeed for the owner of an
    unpaused contract (the first as long as the id is below 2^256 - 1). *)
Theorem batch_lifecycle :
  (forall env, currentBatchId (deploy env) = 1)
  /\ (forall env c s, currentBatchId s <= currentBatchId (step this env c s))
  /\ (forall tr s, currentBatchId s <= currentBatchId (steps this tr s))
  /\ (forall env s s' ev,
        openNewBatch env s = Ok (tt, s', ev) ->
        currentBatchId s' = currentBatchId s + 1
        /\ batchClosed s' (currentBatchId s') = false
        /\ ev = [BatchOpened (currentBatchId s')])
  /\ (forall env s s' ev,
        closeCurrentBatch env s = Ok (tt, s', ev) ->
        currentBatchId s' = currentBatchId s
        /\ batchClosed s' (currentBatchId s) = true
        /\ (forall k, k ≠ currentBatchId s -> batchClosed s' k = batchClosed s k)
        /\ ev = [BatchClosed (currentBatchId s)])
  /\ (forall env s,
        msg_sender env = owner s -> paused s = false ->
        (currentBatchId s < MAX_UINT256 ->
         exists s' ev, openNewBatch env s = Ok (tt, s', ev))
        /\ exists s' ev, closeCurrentBatch env s = Ok (tt, s', ev)).
Proof.
  split; [reflexivity|].
  split; [apply step_currentBatchId|].
  split; [apply steps_currentBatchId|].
  split; [|split].
  - intros env s s' ev. rewrite openNewBatch_eq. tx_cases; try discriminate.
    intros [= <- <-]. simpl. repeat split. apply fn_lookup_insert.
  - intros env s s' ev. rewrite closeCurrentBatch_eq. tx_cases; try discriminate.
    intros [= <- <-]. simpl. repeat split.
    + apply fn_lookup_insert.
    + intros k Hk. apply fn_lookup_insert_ne. congruence.
  - intros env s Hown Hp. rewrite openNewBatch_eq, closeCurrentBatch_eq.
    rewrite bool_decide_eq_false_2 by (intros Hn; exact (Hn Hown)).
    rewrite Hp. split; [|eauto].
    intros Hlt. destruct (currentBatchId s + 1 <=? MAX_UINT256) eqn:E;
      [eauto|apply Z.leb_gt in E; lia].
Qed.

End BatchLifecycle.

(** ** Order of the checks *)

Section CheckOrder.

Context {L : FHE.Lib} {K : Keccak256 FHE.bytes32}.
Variable this : address.

(** C5, with the order the code has: [checkInheritanceTrigger] checks that the
    system is unpaused ([Paused]), that the caller's decryption-request
    cooldown has elapsed ([CooldownActive]; the checked addition
    [lastDecryptionRequestTime + cooldownSeconds] panics when it exceeds
    2^256 - 1), that both encrypted values are initialized
    ([InvalidThreshold]) and that the current batch is open
    ([BatchClosedOrInvalid]); a paused system with an uninitialized threshold
    fails with [Paused]. *)
Theorem checkInheritanceTrigger_check_order env s
    (Hnow : is_uint256 (block_timestamp env)) :
  let now := block_timestamp env in
  let deadline := lastDecryptionRequestTime s (msg_sender env) + cooldownSeconds s in
  let unset := negb (FHE.isInitialized (encryptedLastSignalTimestamp s))
               || negb (FHE.isInitialized (encryptedInactivityThreshold s)) in
  let closed := batchClosed s (currentBatchId s) in
  (paused s = true ->
   checkInheritanceTrigger this env s = Revert Paused)
  /\ (paused s = false -> now < deadline ->
      checkInheritanceTrigger this env s =
        Revert (if deadline <=? MAX_UINT256 then CooldownActive else PanicOverflow))
  /\ (paused s = false -> deadline <= now -> unset = true ->
      checkInheritanceTrigger this env s = Revert InvalidThreshold)
  /\ (paused s = false -> deadline <= now -> unset = false -> closed = true ->
      checkInheritanceTrigger this env s = Revert BatchClosedOrInvalid)
  /\ (paused s = false -> deadline <= now -> unset = false -> closed = false ->
      checkInheritanceTrigger this env s =
        Ok (tt, after_check this env s,
            [DecryptionRequested (counterRequest s) (currentBatchId s)])).
Proof.
  intros now deadline unset closed. subst now deadline unset closed.
  destruct Hnow as [_ Hmax]. rewrite checkInheritanceTrigger_eq.
  split; [|split; [|split; [|split]]].
  - intros ->. reflexivity.
  - intros -> Hlt. case_match; [|reflexivity].
    apply Z.ltb_lt in Hlt. rewrite Hlt. reflexivity.
  - intros -> Hle Hu.
    rewrite (proj2 (Z.leb_le _ _)) by lia. rewrite (proj2 (Z.ltb_ge _ _)) by lia.
    rewrite Hu. reflexivity.
  - intros -> Hle Hu Hc.
    rewrite (proj2 (Z.leb_le _ _)) by lia. rewrite (proj2 (Z.ltb_ge _ _)) by lia.
    rewrite Hu, Hc. reflexivity.
  - intros -> Hle Hu Hc.
    rewrite (proj2 (Z.leb_le _ _)) by lia. rewrite (proj2 (Z.ltb_ge _ _)) by lia.
    rewrite Hu, Hc. reflexivity.
Qed.

(** C6, with the overflow case spelled out: [submitLifeSignal] checks, in
    this order, [NotProvider], [Paused], the cooldown (it rejects whenever
    [now < lastSubmissionTime[caller] + cooldownSeconds]: with
    [CooldownActive] when that sum fits in 256 bits, with the overflow panic
    of the checked addition when it does not) and [BatchClosedOrInvalid];
    when a provider's call succeeds at [now], a second call of that provider
    before [now + cooldownSeconds] fails with [CooldownActive] and a third one
    at or after [now + cooldownSeconds] succeeds. *)
Theorem submitLifeSignal_check_order env t s
    (Hnow : is_uint256 (block_timestamp env)) :
  let caller := msg_sender env in
  let now := block_timestamp env in
  let deadline := lastSubmissionTime s caller + cooldownSeconds s in
  let closed := batchClosed s (currentBatchId s) in
  (isProvider s caller = false ->
   submitLifeSignal env t s = Revert NotProvider)
  /\ (isProvider s caller = true -> paused s = true ->
      submitLifeSignal env t s = Revert Paused)
  /\ (isProvider s caller = true -> paused s = false -> now < deadline ->
      submitLifeSignal env t s =
        Revert (if deadline <=? MAX_UINT256 then CooldownActive else PanicOverflow))
  /\ (isProvider s caller = true -> paused s = false -> deadline <= now ->
      closed = true ->
      submitLifeSignal env t s = Revert BatchClosedOrInvalid)
  /\ (isProvider s caller = true -> paused s = false -> deadline <= now ->
      closed = false ->
      let s1 := state_after (submitLifeSignal env t s) s in
        submitLifeSignal env t s = Ok (tt, s1, [SignalSubmitted caller (currentBatchId s)])
        /\ forall now2 t2 now3 t3,
             now2 < now + cooldownSeconds s ->
             now + cooldownSeconds s <= now3 ->
             is_uint256 now3 ->
             let second := {| msg_sender := caller; block_timestamp := now2 |} in
             let third := {| msg_sender := caller; block_timestamp := now3 |} in
             submitLifeSignal second t2 s1 = Revert CooldownActive
             /\ state_after (submitLifeSignal second t2 s1) s1 = s1
             /\ exists s3 ev3, submitLifeSignal third t3 s1 = Ok (tt, s3, ev3)).
Proof.
  intros caller now deadline closed. subst caller now deadline closed.
  destruct Hnow as [_ Hmax]. rewrite submitLifeSignal_eq.
  split; [|split; [|split; [|split]]].
  - intros ->. reflexivity.
  - intros -> ->. reflexivity.
  - intros -> -> Hlt. simpl. case_match; [|reflexivity].
    apply Z.ltb_lt in Hlt. rewrite Hlt. reflexivity.
  - intros -> -> Hle Hc. simpl.
    rewrite (proj2 (Z.leb_le _ _)) by lia. rewrite (proj2 (Z.ltb_ge _ _)) by lia.
    rewrite Hc. reflexivity.
  - intros Hp Hu Hle Hc. rewrite Hp, Hu. simpl.
    rewrite (proj2 (Z.leb_le _ _)) by lia. rewrite (proj2 (Z.ltb_ge _ _)) by lia.
    rewrite Hc. simpl. split; [reflexivity|].
    intros now2 t2 now3 t3 H2 H3 [_ H3max].
    rewrite !submitLifeSignal_eq. simpl.
    rewrite fn_lookup_insert, Hp, Hu, Hc. simpl.
    rewrite (proj2 (Z.leb_le _ _)) by lia.
    rewrite (proj2 (Z.ltb_lt _ _)) by lia.
    rewrite (proj2 (Z.ltb_ge _ _)) by lia.
    split; [reflexivity|]. split; [reflexivity|]. eauto.
Qed.

End CheckOrder.

(** ** Request ids and stored contexts *)

Section RequestIds.

Context {L : FHE.Lib} {K : Keccak256 FHE.bytes32}.
Variable this : address.

(** The binding hash is never the zero word. *)
Hypothesis keccak_nonzero :
  forall cts a, keccak256_abi_encode cts a ≠ FHE.bytes32_zero.

Lemma fresh_ids_deploy env : fresh_ids (deploy env).
Proof. split; [simpl; lia|]. intros k _. reflexivity. Qed.

Lemma fresh_ids_step env c s : fresh_ids s -> fresh_ids (step this env c s).
Proof.
  intros [Hc Hz]. unfold fresh_ids. step_cases c; try (split; assumption).
  - (* checkInheritanceTrigger *)
    split; [lia|]. intros k Hk.
    rewrite fn_lookup_insert_ne by lia. apply Hz. lia.
  - (* myCallback *)
    split; [exact Hc|]. intros k Hk.
    destruct (decide (requestId = k)) as [->|Hne];
      [|rewrite fn_lookup_insert_ne by exact Hne; apply Hz, Hk].
    exfalso.
    match goal with
    | H : bool_decide (_ ≠ _) = false |- _ =>
        apply bool_decide_eq_false in H; apply dec_stable in H;
        rewrite (Hz k Hk) in H; exact (keccak_nonzero _ _ H)
    end.
Qed.

Lemma reachable_fresh_ids s : reachable this s -> fresh_ids s.
Proof.
  induction 1 as [env _|s env c _ IH _ _];
    [apply fresh_ids_deploy|apply fresh_ids_step, IH].
Qed.

Lemma processed_issued s k :
  fresh_ids s -> processed (decryptionContexts s k) = true -> 0 <= k < counterRequest s.
Proof.
  intros [_ Hz] Hp.
  destruct (decide (0 <= k < counterRequest s)) as [Hk|Hk]; [exact Hk|].
  rewrite (Hz k Hk) in Hp. discriminate Hp.
Qed.

Lemma step_processed env c s k :
  fresh_ids s ->
  processed (decryptionContexts s k) = true ->
  processed (decryptionContexts (step this env c s) k) = true.
Proof.
  intros Hf Hp. pose proof (processed_issued s k Hf Hp) as Hk.
  step_cases c; try exact Hp.
  - rewrite fn_lookup_insert_ne by lia. exact Hp.
  - destruct (decide (requestId = k)) as [->|Hne].
    + rewrite fn_lookup_insert. reflexivity.
    + rewrite fn_lookup_insert_ne by exact Hne. exact Hp.
Qed.

End RequestIds.

(** ** Decoding the oracle's answer *)

Section Decoding.

Lemma slice_in_range (bs : bytes) (from to : nat) :
  (to <= length bs)%nat -> (from <= to)%nat ->
  slice bs from to = Some (take (to - from) (drop from bs)).
Proof.
  intros H1 H2. unfold slice.
  rewrite (proj2 (Nat.leb_le _ _) H1), (proj2 (Nat.leb_le _ _) H2). reflexivity.
Qed.

Lemma slice_word0 (a rest : bytes) : length a = 32%nat -> slice (a ++ rest) 0 32 = Some a.
Proof.
  intros Ha. rewrite slice_in_range by (rewrite ?length_app; lia).
  rewrite drop_0. change (32 - 0)%nat with 32%nat.
  rewrite take_app_length' by (symmetry; exact Ha). reflexivity.
Qed.

Lemma slice_word1 (a b rest : bytes) :
  length a = 32%nat -> length b = 32%nat -> slice (a ++ b ++ rest) 32 64 = Some b.
Proof.
  intros Ha Hb. rewrite slice_in_range by (rewrite ?length_app; lia).
  change (64 - 32)%nat with 32%nat.
  rewrite drop_app_length' by (symmetry; exact Ha).
  rewrite take_app_length' by (symmetry; exact Hb). reflexivity.
Qed.

Lemma slice_word2 (a b c rest : bytes) :
  length a = 32%nat -> length b = 32%nat -> length c = 32%nat ->
  slice (a ++ b ++ c ++ rest) 64 96 = Some c.
Proof.
  intros Ha Hb Hc. rewrite slice_in_range by (rewrite ?length_app; lia).
  change (96 - 64)%nat with 32%nat. change 64%nat with (32 + 32)%nat.
  rewrite <- drop_drop.
  rewrite drop_app_length' by (symmetry; exact Ha).
  rewrite drop_app_length' by (symmetry; exact Hb).
  rewrite take_app_length' by (symmetry; exact Hc). reflexivity.
Qed.

Lemma abi_decode_encode_bool (b : bool) :
  abi_decode_bool (abi_encode_uint256 (if b then 1 else 0)) = Some b.
Proof.
  unfold abi_decode_bool. rewrite abi_decode_encode_uint256.
  - destruct b; reflexivity.
  - unfold is_uint256, MAX_UINT256. destruct b; lia.
Qed.

Lemma decode_cleartexts_words x y (b : bool) :
  is_uint256 x -> is_uint256 y ->
  decode_cleartexts
    (abi_encode_uint256 x ++ abi_encode_uint256 y
       ++ abi_encode_uint256 (if b then 1 else 0) ++ []) = Some (x, y, b).
Proof.
  intros Hx Hy. unfold decode_cleartexts.
  rewrite slice_word0, slice_word1, slice_word2 by apply length_be_encode.
  rewrite !abi_decode_encode_uint256 by assumption.
  rewrite abi_decode_encode_bool. reflexivity.
Qed.

End Decoding.

(** ** The decryption request and its callback *)

Section Protocol.

Context {L : FHE.Lib} {K : Keccak256 FHE.bytes32}.
Variable this : address.

(** Assumptions on the library, each used only where it is named: the hash
    is collision free and never zero, [FHE.max] returns a handle other than
    its first operand, and the oracle's cleartexts follow 32-bit arithmetic. *)
Hypothesis keccak_nonzero :
  forall cts a, keccak256_abi_encode cts a ≠ FHE.bytes32_zero.
Hypothesis keccak_injective :
  forall cts1 cts2 a,
    keccak256_abi_encode cts1 a = keccak256_abi_encode cts2 a -> cts1 = cts2.
Hypothesis max_fresh :
  forall a b, FHE.toBytes32 (FHE.max a b) ≠ FHE.toBytes32 a.
Hypothesis decrypt_range :
  forall e, 0 <= cleartext e < 2 ^ 32.
Hypothesis decrypt_asEuint32 :
  forall v, cleartext (FHE.asEuint32 v) = wrap32 v.
Hypothesis decrypt_sub :
  forall a b, cleartext (FHE.sub a b) = wrap32 (cleartext a - cleartext b).
Hypothesis decrypt_ge :
  forall a b,
    FHE.decrypt (FHE.toBytes32_ebool (FHE.ge a b))
    = if cleartext b <=? cleartext a then 1 else 0.

Lemma checkInheritanceTrigger_ok env s s1 ev :
  checkInheritanceTrigger this env s = Ok (tt, s1, ev) ->
  s1 = after_check this env s
  /\ ev = [DecryptionRequested (counterRequest s) (currentBatchId s)]
  /\ paused s = false
  /\ FHE.isInitialized (encryptedLastSignalTimestamp s) = true
  /\ FHE.isInitialized (encryptedInactivityThreshold s) = true
  /\ batchClosed s (currentBatchId s) = false.
Proof.
  rewrite checkInheritanceTrigger_eq.
  destruct (paused s); [discriminate|].
  case_match; [|discriminate]. case_match; [discriminate|].
  destruct (FHE.isInitialized (encryptedLastSignalTimestamp s));
    [|discriminate].
  destruct (FHE.isInitialized (encryptedInactivityThreshold s));
    [|discriminate].
  simpl. destruct (batchClosed s (currentBatchId s)); [discriminate|].
  intros [= <- <-]. repeat split.
Qed.

Lemma submitLifeSignal_ok env t s s1 ev :
  submitLifeSignal env t s = Ok (tt, s1, ev) ->
  s1 = set_encryptedLastSignalTimestamp
         (FHE.max (encryptedLastSignalTimestamp s) (FHE.asEuint32 t))
         (set_lastSubmissionTime
            (<[msg_sender env := block_timestamp env]> (lastSubmissionTime s)) s)
  /\ ev = [SignalSubmitted (msg_sender env) (currentBatchId s)].
Proof.
  rewrite submitLifeSignal_eq. tx_cases; try discriminate.
  intros [= <- <-]. split; reflexivity.
Qed.

Lemma myCallback_ok env requestId cleartexts proof s s1 ev :
  myCallback this env requestId cleartexts proof s = Ok (tt, s1, ev) ->
  s1 = after_callback requestId s
  /\ processed (decryptionContexts s requestId) = false.
Proof.
  rewrite myCallback_eq. tx_cases; try discriminate.
  destruct (decode_cleartexts cleartexts) as [[[? ?] ?]|]; [|discriminate].
  intros [= <- <-]. split; reflexivity.
Qed.

Lemma ciphertexts_same_time env1 env2 a b :
  block_timestamp env2 = block_timestamp env1 ->
  ciphertexts env2 a b = ciphertexts env1 a b.
Proof. unfold ciphertexts. intros ->. reflexivity. Qed.

(** C1, with the condition on the callback's timestamp made explicit: after
    a successful [checkInheritanceTrigger] (so both encrypted values are
    initialized), the callback for its request, run on the storage the
    request left, with the oracle's cleartexts for the submitted handles and
    a proof that verifies, succeeds provided the handles rebuilt from the
    callback's block timestamp are the ones built at request time (as they
    are when both run at the same timestamp); the decoded flag is then
    [threshold <= now - lastSignal] at the request's [now], computed in the
    unsigned 32-bit arithmetic of the encrypted values, which is the plain
    comparison when [lastSignal <= now < 2^32]. *)
Theorem check_then_callback env1 env2 cleartexts proof s s1 ev1
    (Hcheck : checkInheritanceTrigger this env1 s = Ok (tt, s1, ev1))
    (Hsame : ciphertexts env2 (encryptedLastSignalTimestamp s)
                         (encryptedInactivityThreshold s)
             = ciphertexts env1 (encryptedLastSignalTimestamp s)
                           (encryptedInactivityThreshold s))
    (Horacle : cleartexts = oracle_cleartexts (requestedHandles s1 (counterRequest s)))
    (Hproof : FHE.checkSignatures (counterRequest s) cleartexts proof = true) :
  let now := block_timestamp env1 in
  let lastSignal := cleartext (encryptedLastSignalTimestamp s) in
  let threshold := cleartext (encryptedInactivityThreshold s) in
  let trigger := threshold <=? wrap32 (wrap32 now - lastSignal) in
  myCallback this env2 (counterRequest s) cleartexts proof s1
    = Ok (tt, after_callback (counterRequest s) s1,
          [DecryptionCompleted (counterRequest s) (currentBatchId s)
             lastSignal threshold trigger])
  /\ processed (decryptionContexts (after_callback (counterRequest s) s1)
                  (counterRequest s)) = true
  /\ (lastSignal <= now < 2 ^ 32 -> trigger = (threshold <=? now - lastSignal)).
Proof.
  intros now lastSignal threshold trigger.
  apply checkInheritanceTrigger_ok in Hcheck as (-> & _).
  split; [|split].
  - rewrite myCallback_eq. unfold after_check at 1 2 3 4. simpl.
    rewrite !fn_lookup_insert. simpl. rewrite Hsame.
    rewrite bool_decide_eq_false_2 by (intros Hn; apply Hn; reflexivity).
    rewrite Hproof. simpl.
    subst cleartexts. unfold after_check. simpl requestedHandles.
    rewrite fn_lookup_insert. unfold oracle_cleartexts, ciphertexts.
    cbn [flat_map]. rewrite decrypt_ge, decrypt_sub, decrypt_asEuint32.
    fold lastSignal threshold.
    replace (if threshold <=? wrap32 (wrap32 (block_timestamp env1) - lastSignal)
             then 1 else 0)
      with (if trigger then 1 else 0) by reflexivity.
    assert (Hl : 0 <= lastSignal < 2 ^ 32) by apply decrypt_range.
    assert (Ht : 0 <= threshold < 2 ^ 32) by apply decrypt_range.
    rewrite decode_cleartexts_words; [reflexivity| |];
      apply uint32_is_uint256; assumption.
  - unfold after_callback. simpl. rewrite fn_lookup_insert. reflexivity.
  - intros Hr. unfold trigger.
    assert (Hl : 0 <= lastSignal) by apply decrypt_range.
    rewrite (wrap32_small now) by lia.
    rewrite wrap32_small by lia. reflexivity.
Qed.

(** C3: when a [submitLifeSignal] succeeds after a successful
    [checkInheritanceTrigger] and before the callback of that request, the
    hash the callback rebuilds differs from the stored [stateHash]; the
    callback reverts with [StateMismatch], the context stays unprocessed and
    the storage is what it was. *)
Theorem callback_after_signal_mismatch env1 env2 env3 t cleartexts proof s s1 s2 ev1 ev2
    (Hcheck : checkInheritanceTrigger this env1 s = Ok (tt, s1, ev1))
    (Hsignal : submitLifeSignal env2 t s1 = Ok (tt, s2, ev2)) :
  _hashCiphertexts this
    (ciphertexts env3 (encryptedLastSignalTimestamp s2) (encryptedInactivityThreshold s2))
  ≠ stateHash (decryptionContexts s2 (counterRequest s))
  /\ myCallback this env3 (counterRequest s) cleartexts proof s2 = Revert StateMismatch
  /\ processed (decryptionContexts s2 (counterRequest s)) = false
  /\ step this env3 (MyCallback (counterRequest s) cleartexts proof) s2 = s2.
Proof.
  apply checkInheritanceTrigger_ok in Hcheck as (-> & _).
  apply submitLifeSignal_ok in Hsignal as (-> & _).
  assert (Hne : _hashCiphertexts this
    (ciphertexts env3
       (FHE.max (encryptedLastSignalTimestamp s) (FHE.asEuint32 t))
       (encryptedInactivityThreshold s))
    ≠ _hashCiphertexts this
        (ciphertexts env1 (encryptedLastSignalTimestamp s)
           (encryptedInactivityThreshold s))).
  { intros Heq. apply keccak_injective in Heq. unfold ciphertexts in Heq.
    injection Heq as Heq _. exact (max_fresh _ _ Heq). }
  assert (Hrun : myCallback this env3 (counterRequest s) cleartexts proof
            (set_encryptedLastSignalTimestamp
               (FHE.max (encryptedLastSignalTimestamp (after_check this env1 s))
                  (FHE.asEuint32 t))
               (set_lastSubmissionTime
                  (<[msg_sender env2 := block_timestamp env2]>
                     (lastSubmissionTime (after_check this env1 s)))
                  (after_check this env1 s)))
          = Revert StateMismatch).
  { rewrite myCallback_eq. unfold after_check. simpl.
    rewrite !fn_lookup_insert. simpl.
    rewrite bool_decide_eq_true_2 by exact Hne. reflexivity. }
  split; [|split; [exact Hrun|split]].
  - unfold after_check. simpl. rewrite fn_lookup_insert. simpl. exact Hne.
  - unfold after_check. simpl. rewrite fn_lookup_insert. reflexivity.
  - unfold step, exec. rewrite Hrun. reflexivity.
Qed.

(** C4: after a successful delivery for [requestId] a second delivery for
    that id reverts with [ReplayDetected] and leaves the storage as the first
    delivery made it; the first delivery found the flag [false] and set it to
    [true]; from a reachable state no call turns a [true] flag back to
    [false], so the flag flips at most once, and wherever the flag is [true]
    a delivery reverts with [ReplayDetected]. *)
Theorem callback_replay env requestId cleartexts proof s s1 ev
    (Hfirst : myCallback this env requestId cleartexts proof s = Ok (tt, s1, ev)) :
  processed (decryptionContexts s requestId) = false
  /\ processed (decryptionContexts s1 requestId) = true
  /\ (forall env' cleartexts' proof',
        myCallback this env' requestId cleartexts' proof' s1 = Revert ReplayDetected
        /\ step this env' (MyCallback requestId cleartexts' proof') s1 = s1)
  /\ (forall s' env' c,
        reachable this s' ->
        processed (decryptionContexts s' requestId) = true ->
        processed (decryptionContexts (step this env' c s') requestId) = true)
  /\ (forall s' env' cleartexts' proof',
        processed (decryptionContexts s' requestId) = true ->
        myCallback this env' requestId cleartexts' proof' s' = Revert ReplayDetected).
Proof.
  apply myCallback_ok in Hfirst as (-> & Hp).
  assert (Hset : processed (decryptionContexts (after_callback requestId s) requestId) = true)
    by (unfold after_callback; simpl; rewrite fn_lookup_insert; reflexivity).
  split; [exact Hp|]. split; [exact Hset|]. split.
  - intros env' cleartexts' proof'.
    assert (Hrun : myCallback this env' requestId cleartexts' proof'
                     (after_callback requestId s) = Revert ReplayDetected)
      by (rewrite myCallback_eq, Hset; reflexivity).
    split; [exact Hrun|]. unfold step, exec. rewrite Hrun. reflexivity.
  - split.
    + intros s' env' c Hr Hp'. apply step_processed; [|exact Hp'].
      exact (reachable_fresh_ids this keccak_nonzero s' Hr).
    + intros s' env' cleartexts' proof' Hp'. rewrite myCallback_eq, Hp'. reflexivity.
Qed.

(** C9: in a reachable state, a callback for a [requestId] that no
    [checkInheritanceTrigger] was given (ids are handed out from 0 up to
    [counterRequest - 1]) finds the zero context: the replay guard lets it
    through because [processed] is [false], and it reverts with
    [StateMismatch] because the stored [stateHash] is zero; no other error
    reports an unknown id. *)
Theorem callback_unknown_request env requestId cleartexts proof s
    (Hreach : reachable this s)
    (Hunknown : ~ (0 <= requestId < counterRequest s)) :
  decryptionContexts s requestId = zero_context
  /\ processed (decryptionContexts s requestId) = false
  /\ stateHash (decryptionContexts s requestId) = FHE.bytes32_zero
  /\ myCallback this env requestId cleartexts proof s = Revert StateMismatch.
Proof.
  destruct (reachable_fresh_ids this keccak_nonzero s Hreach) as [_ Hz].
  specialize (Hz requestId Hunknown).
  rewrite myCallback_eq, Hz. simpl.
  rewrite bool_decide_eq_true_2 by apply keccak_nonzero.
  repeat split.
Qed.

End Protocol.

(** ** The life-signal aggregate *)

Section Aggregate.

Context {L : FHE.Lib}.

(** Whatever the state of the aggregate, [_initIfNeeded] writes nothing and
    a successful [submitLifeSignal] stores [FHE.max] of the old aggregate and
    the new value. *)
Lemma submitLifeSignal_aggregate env t s s' ev :
  submitLifeSignal env t s = Ok (tt, s', ev) ->
  (forall target value, _initIfNeeded target value s = Ok (tt, s, []))
  /\ encryptedLastSignalTimestamp s'
     = FHE.max (encryptedLastSignalTimestamp s) (FHE.asEuint32 t).
Proof.
  rewrite submitLifeSignal_eq. tx_cases; try discriminate.
  intros [= <- <-]. split; reflexivity.
Qed.

End Aggregate.

(** ** The symbolic library satisfies the assumptions *)

Module SymbolicFacts.

Import Symbolic.

Lemma sym_keccak_nonzero (cts : list handle) (a : address) :
  keccak256_abi_encode cts a ≠ FHE.bytes32_zero.
Proof. discriminate. Qed.

Lemma encode_list_inj (l1 l2 : list handle) :
  fold_right HCons HNil l1 = fold_right HCons HNil l2 -> l1 = l2.
Proof.
  revert l2. induction l1 as [|x l1 IH]; intros [|y l2] H; simpl in H;
    try discriminate; [reflexivity|].
  injection H as -> H. f_equal. apply IH, H.
Qed.

Lemma sym_keccak_injective (cts1 cts2 : list handle) (a : address) :
  keccak256_abi_encode cts1 a = keccak256_abi_encode cts2 a -> cts1 = cts2.
Proof. intros H. injection H as H. apply encode_list_inj, H. Qed.

Lemma sym_max_fresh (a b : handle) : FHE.toBytes32 (FHE.max a b) ≠ FHE.toBytes32 a.
Proof.
  simpl. revert b. induction a; intros b H; try discriminate.
  injection H as H1 H2. exact (IHa1 _ H1).
Qed.

Lemma sym_decrypt_range (e : handle) : 0 <= cleartext e < 2 ^ 32.
Proof.
  unfold cleartext. simpl.
  assert (Hp : 0 < 2 ^ 32) by reflexivity.
  assert (H1 : 1 < 2 ^ 32) by reflexivity.
  induction e; simpl; try apply wrap32_range; try lia.
  destruct (decrypt e2 <=? decrypt e1); lia.
Qed.

Lemma sym_decrypt_asEuint32 (v : Z) : cleartext (FHE.asEuint32 v) = wrap32 v.
Proof. reflexivity. Qed.

Lemma sym_decrypt_sub (a b : handle) :
  cleartext (FHE.sub a b) = wrap32 (cleartext a - cleartext b).
Proof. reflexivity. Qed.

Lemma sym_decrypt_ge (a b : handle) :
  FHE.decrypt (FHE.toBytes32_ebool (FHE.ge a b))
  = if cleartext b <=? cleartext a then 1 else 0.
Proof. reflexivity. Qed.

End SymbolicFacts.

(** ** The scenario states are reachable *)

Module ScenarioFacts.

Import Symbolic Scenario.

Ltac valid_tac :=
  unfold valid_env, valid_call, is_address, is_uint256; simpl;
  repeat split; try (vm_compute; discriminate).

Lemma reachable_deployed : reachable contract deployed.
Proof. apply reachable_deploy. valid_tac. Qed.

Lemma reachable_signalled : reachable contract signalled.
Proof. apply reachable_step; [apply reachable_deployed| |]; valid_tac. Qed.

Lemma reachable_armed : reachable contract armed.
Proof. apply reachable_step; [apply reachable_signalled| |]; valid_tac. Qed.

Lemma reachable_paused_unset : reachable contract paused_unset.
Proof. apply reachable_step; [apply reachable_deployed| |]; valid_tac. Qed.

Lemma reachable_overflowing : reachable contract overflowing.
Proof. apply reachable_step; [apply reachable_signalled| |]; valid_tac. Qed.

End ScenarioFacts.

(** * Further properties of the contract *)

(** ** Who can change what *)

Section Authority.

Context {L : FHE.Lib} {K : Keccak256 FHE.bytes32}.
Variable this : address.

(** X1: a call whose sender is not the owner leaves the owner, the provider
    flags, the pause flag, the cooldown, the batch id, the closed flags and
    the threshold as they were, whatever the call and its outcome; when the
    function is owner-only the call reverts with [NotOwner], also on a
    paused contract. *)
Theorem non_owner_cannot_reconfigure env c s
    (Hother : msg_sender env ≠ owner s) :
  owner (step this env c s) = owner s
  /\ isProvider (step this env c s) = isProvider s
  /\ paused (step this env c s) = paused s
  /\ cooldownSeconds (step this env c s) = cooldownSeconds s
  /\ currentBatchId (step this env c s) = currentBatchId s
  /\ batchClosed (step this env c s) = batchClosed s
  /\ encryptedInactivityThreshold (step this env c s) = encryptedInactivityThreshold s
  /\ (owner_only c = true -> exec this env c s = Revert NotOwner).
Proof.
  assert (Hb : bool_decide (msg_sender env ≠ owner s) = true)
    by (apply bool_decide_eq_true_2, Hother).
  destruct c; unfold step, exec;
    first [ rewrite transferOwnership_eq | rewrite addProvider_eq
          | rewrite removeProvider_eq | rewrite setPaused_eq
          | rewrite setCooldownSeconds_eq | rewrite openNewBatch_eq
          | rewrite closeCurrentBatch_eq | rewrite submitLifeSignal_eq
          | rewrite setInactivityThreshold_eq | rewrite checkInheritanceTrigger_eq
          | rewrite myCallback_eq ];
    rewrite ?Hb; simpl; tx_cases;
    try match goal with
        | |- context [decode_cleartexts ?x] =>
            destruct (decode_cleartexts x) as [[[? ?] ?]|]
        end;
    simpl; repeat split; intros; try discriminate; try assumption.
Qed.

(** X2: the stored aggregate changes only through a [submitLifeSignal] that
    passed its checks (a provider, unpaused, cooldown over, batch open), and
    then it becomes [FHE.max] of the old aggregate and the wrapped input. *)
Theorem aggregate_changes_only_by_signal env c s
    (Hmoved : encryptedLastSignalTimestamp (step this env c s)
              ≠ encryptedLastSignalTimestamp s) :
  exists t,
    c = SubmitLifeSignal t
    /\ isProvider s (msg_sender env) = true
    /\ paused s = false
    /\ batchClosed s (currentBatchId s) = false
    /\ lastSubmissionTime s (msg_sender env) + cooldownSeconds s <= block_timestamp env
    /\ encryptedLastSignalTimestamp (step this env c s)
       = FHE.max (encryptedLastSignalTimestamp s) (FHE.asEuint32 t).
Proof.
  revert Hmoved. step_cases c; intros Hmoved; try (exfalso; apply Hmoved; reflexivity).
  exists _encryptedTimestamp.
  repeat match goal with
         | H : negb _ = false |- _ => apply negb_false_iff in H
         | H : (_ <? _) = false |- _ => apply Z.ltb_ge in H
         end.
  repeat split; assumption.
Qed.

(** X3: a successful call that emits no event has changed nothing, and it is
    an [addProvider] of a provider or a [removeProvider] of a non-provider;
    no call emits more than one event. *)
Theorem every_change_is_logged env c s s' ev
    (Hok : exec this env c s = Ok (tt, s', ev)) :
  (length ev <= 1)%nat
  /\ (ev = [] ->
      s' = s
      /\ ((exists p, c = AddProvider p /\ isProvider s p = true)
          \/ (exists p, c = RemoveProvider p /\ isProvider s p = false))).
Proof.
  revert Hok. destruct c; unfold exec;
    first [ rewrite transferOwnership_eq | rewrite addProvider_eq
          | rewrite removeProvider_eq | rewrite setPaused_eq
          | rewrite setCooldownSeconds_eq | rewrite openNewBatch_eq
          | rewrite closeCurrentBatch_eq | rewrite submitLifeSignal_eq
          | rewrite setInactivityThreshold_eq | rewrite checkInheritanceTrigger_eq
          | rewrite myCallback_eq ];
    tx_cases;
    try match goal with
        | |- context [decode_cleartexts ?x] =>
            destruct (decode_cleartexts x) as [[[? ?] ?]|]
        end;
    intros Hok; try discriminate Hok; injection Hok as <- <-;
    (split; [simpl; lia|]); intros Hev; try discriminate Hev.
  - split; [reflexivity|]. left. eexists. split; [reflexivity|].
    match goal with H : negb _ = false |- _ => apply negb_false_iff in H; exact H end.
  - split; [reflexivity|]. right. eexists. split; [reflexivity|assumption].
Qed.

(** X4: handing the ownership over and back restores the storage exactly;
    in between the former owner is refused every owner-only call. *)
Theorem ownership_round_trip env env' newOwner s
    (Hown : msg_sender env = owner s)
    (Hnew : msg_sender env' = newOwner)
    (Hdiff : newOwner ≠ owner s) :
  let s1 := step this env (TransferOwnership newOwner) s in
  owner s1 = newOwner
  /\ (forall c, owner_only c = true -> exec this env c s1 = Revert NotOwner)
  /\ step this env' (TransferOwnership (owner s)) s1 = s.
Proof.
  unfold step, exec. rewrite transferOwnership_eq.
  rewrite bool_decide_eq_false_2 by (intros Hn; exact (Hn Hown)).
  simpl. split; [reflexivity|]. split.
  - intros c Hc. apply step_owner_only_revert; [|exact Hc].
    simpl. rewrite Hown. congruence.
  - rewrite transferOwnership_eq. simpl.
    rewrite bool_decide_eq_false_2 by (intros Hn; exact (Hn Hnew)).
    simpl. destruct s; reflexivity.
Qed.

End Authority.

(** ** The pause flag and the batches *)

Section Gates.

Context {L : FHE.Lib} {K : Keccak256 FHE.bytes32}.
Variable this : address.

(** X5: on a paused contract none of the five functions under
    [whenNotPaused] goes through, whoever calls: the call reverts with
    [Paused], or with the error of a modifier placed before ([NotOwner],
    [NotProvider]), and the storage stays as it was. *)
Theorem paused_blocks env c s
    (Hpaused : paused s = true)
    (Hc : pausable c = true) :
  exec this env c s = Revert (paused_error env c s)
  /\ step this env c s = s.
Proof.
  assert (Hrun : exec this env c s = Revert (paused_error env c s)).
  { destruct c; try discriminate Hc; unfold exec, paused_error;
      first [ rewrite openNewBatch_eq | rewrite closeCurrentBatch_eq
            | rewrite submitLifeSignal_eq | rewrite setInactivityThreshold_eq
            | rewrite checkInheritanceTrigger_eq ];
      rewrite Hpaused; tx_cases; try reflexivity; try discriminate. }
  split; [exact Hrun|]. unfold step. rewrite Hrun. reflexivity.
Qed.

(** X6: the callback asks neither who calls nor whether the contract is
    paused nor whether the batch is closed: with the same block timestamp
    any two senders get the same result, and changing the pause flag or the
    closed flags of the storage changes nothing but those fields of the
    result. *)
Theorem callback_open_to_anyone env env' requestId cleartexts proof s
    (Htime : block_timestamp env' = block_timestamp env) :
  myCallback this env' requestId cleartexts proof s
    = myCallback this env requestId cleartexts proof s
  /\ (forall b,
        myCallback this env requestId cleartexts proof (set_paused b s)
        = on_state (set_paused b) (myCallback this env requestId cleartexts proof s))
  /\ (forall flags,
        myCallback this env requestId cleartexts proof (set_batchClosed flags s)
        = on_state (set_batchClosed flags)
            (myCallback this env requestId cleartexts proof s)).
Proof.
  split; [|split].
  - rewrite !myCallback_eq. unfold ciphertexts. rewrite Htime. reflexivity.
  - intros b. rewrite !myCallback_eq. simpl. tx_cases; try reflexivity.
    destruct (decode_cleartexts cleartexts) as [[[? ?] ?]|]; reflexivity.
  - intros flags. rewrite !myCallback_eq. simpl. tx_cases; try reflexivity.
    destruct (decode_cleartexts cleartexts) as [[[? ?] ?]|]; reflexivity.
Qed.

Lemma closed_in_range_deploy env : closed_in_range (deploy env).
Proof. split; [simpl; lia|]. intros k Hk. discriminate Hk. Qed.

Lemma closed_in_range_step env c s :
  closed_in_range s -> closed_in_range (step this env c s).
Proof.
  intros [H1 Hk]. unfold closed_in_range.
  step_cases c; try (split; assumption).
  - split; [lia|]. intros k Hc.
    destruct (decide (currentBatchId s + 1 = k)) as [<-|Hne].
    + rewrite fn_lookup_insert in Hc. discriminate Hc.
    + rewrite fn_lookup_insert_ne in Hc by exact Hne. apply Hk in Hc. lia.
  - split; [exact H1|]. intros k Hc.
    destruct (decide (currentBatchId s = k)) as [<-|Hne]; [lia|].
    rewrite fn_lookup_insert_ne in Hc by exact Hne. apply Hk, Hc.
Qed.

Lemma reachable_closed_in_range s : reachable this s -> closed_in_range s.
Proof.
  induction 1 as [env _|s env c _ IH _ _];
    [apply closed_in_range_deploy|apply closed_in_range_step, IH].
Qed.

Lemma step_stays_closed env c s k :
  closed_in_range s -> batchClosed s k = true ->
  batchClosed (step this env c s) k = true.
Proof.
  intros [H1 Hk] Hc. pose proof (Hk k Hc) as Hr.
  step_cases c; try exact Hc.
  - rewrite fn_lookup_insert_ne by lia. exact Hc.
  - destruct (decide (currentBatchId s = k)) as [<-|Hne].
    + apply fn_lookup_insert.
    + rewrite fn_lookup_insert_ne by exact Hne. exact Hc.
Qed.

(** X7: in a reachable state a closed flag sits on a batch between 1 and
    the current one, and no run of calls clears it: a batch that was closed
    is never open again, and the only way on is [openNewBatch]. *)
Theorem closed_batch_stays_closed s k
    (Hreach : reachable this s)
    (Hclosed : batchClosed s k = true) :
  1 <= k <= currentBatchId s
  /\ forall tr, batchClosed (steps this tr s) k = true.
Proof.
  pose proof (reachable_closed_in_range s Hreach) as Hinv.
  split; [apply Hinv, Hclosed|].
  intros tr. clear Hreach. revert s Hinv Hclosed.
  induction tr as [|[env c] tr IH]; intros s Hinv Hclosed; [exact Hclosed|].
  simpl. apply IH; [apply closed_in_range_step, Hinv|].
  apply step_stays_closed; assumption.
Qed.

(** X8: while the current batch is closed, [submitLifeSignal] and
    [checkInheritanceTrigger] revert for every caller and input; the owner
    of an unpaused contract can still set the threshold, and after the
    owner's [openNewBatch] the current batch is open. *)
Theorem closed_batch_gates env s
    (Hclosed : batchClosed s (currentBatchId s) = true) :
  (forall t, exists e, submitLifeSignal env t s = Revert e)
  /\ (exists e, checkInheritanceTrigger this env s = Revert e)
  /\ (msg_sender env = owner s -> paused s = false ->
      (forall t, FHE.isInitialized (FHE.asEuint32 t) = true ->
         setInactivityThreshold env t s
         = Ok (tt, set_encryptedInactivityThreshold (FHE.asEuint32 t) s,
               [ThresholdSet (currentBatchId s) t]))
      /\ (currentBatchId s < MAX_UINT256 ->
          batchClosed (step this env OpenNewBatch s)
            (currentBatchId (step this env OpenNewBatch s)) = false)).
Proof.
  split; [|split].
  - intros t. rewrite submitLifeSignal_eq, Hclosed. tx_cases; eauto.
  - rewrite checkInheritanceTrigger_eq, Hclosed. tx_cases; eauto.
  - intros Hown Hp. split.
    + intros t Ht. rewrite setInactivityThreshold_eq.
      rewrite bool_decide_eq_false_2 by (intros Hn; exact (Hn Hown)).
      rewrite Hp, Ht. reflexivity.
    + intros Hlt. unfold step, exec. rewrite openNewBatch_eq.
      rewrite bool_decide_eq_false_2 by (intros Hn; exact (Hn Hown)).
      rewrite Hp. rewrite (proj2 (Z.leb_le _ _)) by lia.
      simpl. apply fn_lookup_insert.
Qed.

(** X9: the threshold is overwritten, not aggregated: once a
    [setInactivityThreshold] went through, a second one gives the very
    result it would have given without the first. *)
Theorem threshold_last_write_wins env1 env2 t1 t2 s s1 ev1
    (Hfirst : setInactivityThreshold env1 t1 s = Ok (tt, s1, ev1)) :
  encryptedInactivityThreshold s1 = FHE.asEuint32 t1
  /\ setInactivityThreshold env2 t2 s1 = setInactivityThreshold env2 t2 s.
Proof.
  rewrite setInactivityThreshold_eq in Hfirst.
  destruct (bool_decide (msg_sender env1 ≠ owner s)); [discriminate|].
  destruct (paused s) eqn:Hp; [discriminate|].
  destruct (negb (FHE.isInitialized (FHE.asEuint32 t1))); [discriminate|].
  injection Hfirst as <- <-. split; [reflexivity|].
  rewrite !setInactivityThreshold_eq. simpl. rewrite Hp. reflexivity.
Qed.

End Gates.

(** ** Cooldowns *)

Section Cooldowns.

Context {L : FHE.Lib} {K : Keccak256 FHE.bytes32}.
Variable this : address.

(** X10: a caller without an entry in a cooldown map reads 0 there, so the
    cooldown counts from time 0: as long as [block.timestamp] is below
    [cooldownSeconds], a provider's first [submitLifeSignal] and anybody's
    first [checkInheritanceTrigger] on an unpaused contract revert with
    [CooldownActive]. *)
Theorem first_call_waits_cooldown env s
    (Hcd : is_uint256 (cooldownSeconds s))
    (Hearly : block_timestamp env < cooldownSeconds s)
    (Hunpaused : paused s = false) :
  (lastSubmissionTime s (msg_sender env) = 0 ->
   isProvider s (msg_sender env) = true ->
   forall t, submitLifeSignal env t s = Revert CooldownActive)
  /\ (lastDecryptionRequestTime s (msg_sender env) = 0 ->
      checkInheritanceTrigger this env s = Revert CooldownActive).
Proof.
  destruct Hcd as [_ Hmax]. split.
  - intros H0 Hp t. rewrite submitLifeSignal_eq, Hp, Hunpaused, H0, Z.add_0_l.
    rewrite (proj2 (Z.leb_le _ _) Hmax), (proj2 (Z.ltb_lt _ _) Hearly). reflexivity.
  - intros H0. rewrite checkInheritanceTrigger_eq, Hunpaused, H0, Z.add_0_l.
    rewrite (proj2 (Z.leb_le _ _) Hmax), (proj2 (Z.ltb_lt _ _) Hearly). reflexivity.
Qed.

(** X11: the two cooldowns are kept per caller and per action.  A successful
    [submitLifeSignal] stamps the caller's submission time and nothing else
    in either map, so it neither delays another provider's signal nor
    anybody's request; a successful [checkInheritanceTrigger] stamps the
    caller's request time only and delays no life signal. *)
Theorem cooldown_buckets_independent env s s1 ev :
  (forall t,
     submitLifeSignal env t s = Ok (tt, s1, ev) ->
     lastSubmissionTime s1 (msg_sender env) = block_timestamp env
     /\ (forall a, a ≠ msg_sender env -> lastSubmissionTime s1 a = lastSubmissionTime s a)
     /\ lastDecryptionRequestTime s1 = lastDecryptionRequestTime s
     /\ (forall env' t' e,
           msg_sender env' ≠ msg_sender env ->
           submitLifeSignal env' t' s1 = Revert e <-> submitLifeSignal env' t' s = Revert e))
  /\ (checkInheritanceTrigger this env s = Ok (tt, s1, ev) ->
      lastDecryptionRequestTime s1 (msg_sender env) = block_timestamp env
      /\ (forall a, a ≠ msg_sender env ->
            lastDecryptionRequestTime s1 a = lastDecryptionRequestTime s a)
      /\ lastSubmissionTime s1 = lastSubmissionTime s
      /\ (forall env' t' e,
            submitLifeSignal env' t' s1 = Revert e <-> submitLifeSignal env' t' s = Revert e)).
Proof.
  split.
  - intros t Hok. apply submitLifeSignal_ok in Hok as (-> & _). simpl.
    split; [apply fn_lookup_insert|].
    split; [intros a Ha; apply fn_lookup_insert_ne; congruence|].
    split; [reflexivity|].
    intros env' t' e Hne. rewrite !submitLifeSignal_eq. simpl.
    rewrite fn_lookup_insert_ne by congruence.
    tx_cases; split; intros H; try discriminate H; try exact H.
  - intros Hok. apply checkInheritanceTrigger_ok in Hok as (-> & _).
    unfold after_check. simpl.
    split; [apply fn_lookup_insert|].
    split; [intros a Ha; apply fn_lookup_insert_ne; congruence|].
    split; [reflexivity|].
    intros env' t' e. rewrite !submitLifeSignal_eq. simpl.
    tx_cases; split; intros H; try discriminate H; try exact H.
Qed.

End Cooldowns.

(** ** Requests and their contexts *)

Section Requests.

Context {L : FHE.Lib} {K : Keccak256 FHE.bytes32}.
Variable this : address.

Lemma step_counterRequest env c s :
  counterRequest s <= counterRequest (step this env c s).
Proof. step_cases c; lia. Qed.

Lemma steps_counterRequest tr s :
  counterRequest s <= counterRequest (steps this tr s).
Proof.
  revert s. induction tr as [|[env c] tr IH]; intros s; simpl; [lia|].
  etransitivity; [apply (step_counterRequest env c)|apply IH].
Qed.

Lemma step_context_binding env c s k :
  k < counterRequest s ->
  batchId (decryptionContexts (step this env c s) k) = batchId (decryptionContexts s k)
  /\ stateHash (decryptionContexts (step this env c s) k)
     = stateHash (decryptionContexts s k)
  /\ (processed (decryptionContexts s k) = true ->
      processed (decryptionContexts (step this env c s) k) = true).
Proof.
  intros Hk. step_cases c; try (repeat split; auto; fail).
  - rewrite fn_lookup_insert_ne by lia. repeat split; auto.
  - destruct (decide (requestId = k)) as [->|Hne].
    + rewrite fn_lookup_insert. repeat split.
    + rewrite fn_lookup_insert_ne by exact Hne. repeat split; auto.
Qed.

(** X12: what a request bound stays bound: for an id that was handed out, no
    run of calls changes the [batchId] or the [stateHash] of its context or
    takes back a [processed] flag, and a single call changes the flag only
    if it is a callback for that very id. *)
Theorem context_binding_immutable s k
    (Hissued : k < counterRequest s) :
  (forall tr,
     batchId (decryptionContexts (steps this tr s) k) = batchId (decryptionContexts s k)
     /\ stateHash (decryptionContexts (steps this tr s) k)
        = stateHash (decryptionContexts s k)
     /\ (processed (decryptionContexts s k) = true ->
         processed (decryptionContexts (steps this tr s) k) = true))
  /\ (forall env c,
        processed (decryptionContexts (step this env c s) k)
        ≠ processed (decryptionContexts s k) ->
        exists cleartexts proof, c = MyCallback k cleartexts proof).
Proof.
  split.
  - intros tr. revert s Hissued.
    induction tr as [|[env c] tr IH]; intros s Hk; [repeat split; auto|].
    simpl.
    destruct (step_context_binding env c s k Hk) as (Hb & Hh & Hp).
    destruct (IH (step this env c s)) as (Hb' & Hh' & Hp').
    { pose proof (step_counterRequest env c s). lia. }
    cbn [fst snd]. rewrite Hb', Hh', Hb, Hh. repeat split; auto.
  - intros env c. step_cases c; intros Hmoved;
      try (exfalso; apply Hmoved; reflexivity).
    + exfalso. apply Hmoved. rewrite fn_lookup_insert_ne by lia. reflexivity.
    + destruct (decide (requestId = k)) as [->|Hne]; [eauto|].
      exfalso. apply Hmoved. rewrite fn_lookup_insert_ne by exact Hne. reflexivity.
Qed.

End Requests.

(** ** What the callback accepts *)

Section CallbackInput.

Context {L : FHE.Lib} {K : Keccak256 FHE.bytes32}.
Variable this : address.

Lemma decode_cleartexts_short (cleartexts : bytes) :
  (length cleartexts < 96)%nat -> decode_cleartexts cleartexts = None.
Proof.
  intros Hlen. unfold decode_cleartexts.
  assert (H2 : slice cleartexts 64 96 = None).
  { unfold slice. rewrite (proj2 (Nat.leb_gt _ _) Hlen). reflexivity. }
  rewrite H2. destruct (slice cleartexts 0 32), (slice cleartexts 32 64); reflexivity.
Qed.

Lemma decode_cleartexts_layout x y v (extra : bytes) :
  is_uint256 x -> is_uint256 y -> is_uint256 v ->
  decode_cleartexts
    (abi_encode_uint256 x ++ abi_encode_uint256 y ++ abi_encode_uint256 v ++ extra)
  = match v with
    | 0 => Some (x, y, false)
    | 1 => Some (x, y, true)
    | _ => None
    end.
Proof.
  intros Hx Hy Hv. unfold decode_cleartexts.
  rewrite slice_word0, slice_word1, slice_word2 by apply length_be_encode.
  unfold abi_decode_bool. rewrite !abi_decode_encode_uint256 by assumption.
  destruct v as [|[p|p|]|p]; reflexivity.
Qed.

(** X13: the callback's checks come in the order replay, hash, proof,
    decoding, and each failure leaves the storage as it was: a processed
    context gives [ReplayDetected] whatever else is wrong, a hash that does
    not match gives [StateMismatch] before the proof is looked at, a proof
    that does not verify gives [DecryptionFailed], and cleartexts shorter
    than the 96 bytes that are decoded make the call revert. *)
Theorem callback_error_order env requestId cleartexts proof s :
  let context := decryptionContexts s requestId in
  let currentHash :=
    _hashCiphertexts this
      (ciphertexts env (encryptedLastSignalTimestamp s) (encryptedInactivityThreshold s)) in
  (processed context = true ->
   myCallback this env requestId cleartexts proof s = Revert ReplayDetected)
  /\ (processed context = false -> currentHash ≠ stateHash context ->
      myCallback this env requestId cleartexts proof s = Revert StateMismatch)
  /\ (processed context = false -> currentHash = stateHash context ->
      FHE.checkSignatures requestId cleartexts proof = false ->
      myCallback this env requestId cleartexts proof s = Revert DecryptionFailed)
  /\ (processed context = false -> currentHash = stateHash context ->
      FHE.checkSignatures requestId cleartexts proof = true ->
      (length cleartexts < 96)%nat ->
      myCallback this env requestId cleartexts proof s = Revert RevertDecode)
  /\ (forall e,
        myCallback this env requestId cleartexts proof s = Revert e ->
        step this env (MyCallback requestId cleartexts proof) s = s).
Proof.
  intros context currentHash. subst context currentHash.
  rewrite myCallback_eq.
  split; [|split; [|split; [|split]]].
  - intros ->. reflexivity.
  - intros -> Hne. rewrite bool_decide_eq_true_2 by exact Hne. reflexivity.
  - intros -> Heq ->. rewrite bool_decide_eq_false_2 by (intros Hn; exact (Hn Heq)).
    reflexivity.
  - intros -> Heq -> Hlen.
    rewrite bool_decide_eq_false_2 by (intros Hn; exact (Hn Heq)).
    rewrite decode_cleartexts_short by exact Hlen. reflexivity.
  - intros e He. unfold step, exec. rewrite myCallback_eq, He. reflexivity.
Qed.

(** X14: once replay, hash and proof are passed, the callback reads three
    32-byte big-endian words from the front of [cleartexts] and nothing
    after them: the first two are reported as they are, the third has to be
    0 or 1 and is reported as the trigger, any other third word makes the
    call revert, and bytes after the 96th do not matter. *)
Theorem callback_decoding env requestId proof s x y v (extra : bytes)
    (Hx : is_uint256 x) (Hy : is_uint256 y) (Hv : is_uint256 v)
    (Hfresh : processed (decryptionContexts s requestId) = false)
    (Hhash : _hashCiphertexts this
               (ciphertexts env (encryptedLastSignalTimestamp s)
                  (encryptedInactivityThreshold s))
             = stateHash (decryptionContexts s requestId))
    (Hproof : FHE.checkSignatures requestId
                (abi_encode_uint256 x ++ abi_encode_uint256 y
                   ++ abi_encode_uint256 v ++ extra) proof = true) :
  myCallback this env requestId
    (abi_encode_uint256 x ++ abi_encode_uint256 y ++ abi_encode_uint256 v ++ extra)
    proof s
  = match v with
    | 0 => Ok (tt, after_callback requestId s,
               [DecryptionCompleted requestId
                  (batchId (decryptionContexts s requestId)) x y false])
    | 1 => Ok (tt, after_callback requestId s,
               [DecryptionCompleted requestId
                  (batchId (decryptionContexts s requestId)) x y true])
    | _ => Revert RevertDecode
    end.
Proof.
  rewrite myCallback_eq, Hfresh, Hproof.
  rewrite bool_decide_eq_false_2 by (intros Hn; exact (Hn Hhash)).
  simpl negb. cbv iota.
  rewrite decode_cleartexts_layout by assumption.
  destruct v as [|[p|p|]|p]; reflexivity.
Qed.

End CallbackInput.

(** ** The cleartext of the aggregate *)

Section AggregateCleartext.

Context {L : FHE.Lib} {K : Keccak256 FHE.bytes32}.
Variable this : address.

(** The library's [max] is the maximum of the cleartexts. *)
Hypothesis decrypt_max :
  forall a b, cleartext (FHE.max a b) = Z.max (cleartext a) (cleartext b).

Lemma step_aggregate_kept env c s :
  (forall t, c ≠ SubmitLifeSignal t) ->
  encryptedLastSignalTimestamp (step this env c s) = encryptedLastSignalTimestamp s.
Proof.
  intros Hc. step_cases c; try reflexivity.
  exfalso. eapply Hc. reflexivity.
Qed.

Lemma fold_max_ge (l : list Z) (a : Z) : a <= fold_left Z.max l a.
Proof.
  revert a. induction l as [|x l IH]; intros a; simpl; [lia|].
  etransitivity; [|apply IH]. lia.
Qed.

(** X15: when the library's [max] takes the maximum of the cleartexts, the
    cleartext of the aggregate after any run of calls is the maximum of its
    cleartext before the run and of the wrapped timestamps of the life
    signals the run got accepted, in whatever order they came; so it never
    decreases. *)
Theorem aggregate_cleartext_is_max tr s :
  cleartext (encryptedLastSignalTimestamp (steps this tr s))
  = fold_left Z.max
      (map (fun t => cleartext (FHE.asEuint32 t)) (accepted_signals this tr s))
      (cleartext (encryptedLastSignalTimestamp s))
  /\ cleartext (encryptedLastSignalTimestamp s)
     <= cleartext (encryptedLastSignalTimestamp (steps this tr s)).
Proof.
  assert (Heq : forall tr s,
    cleartext (encryptedLastSignalTimestamp (steps this tr s))
    = fold_left Z.max
        (map (fun t => cleartext (FHE.asEuint32 t)) (accepted_signals this tr s))
        (cleartext (encryptedLastSignalTimestamp s))).
  { clear tr s. induction tr as [|[env c] tr IH]; intros s; [reflexivity|].
    cbn [steps fold_left fst snd]. fold (steps this tr (step this env c s)).
    rewrite IH. cbn [accepted_signals].
    destruct c;
      try (rewrite step_aggregate_kept by discriminate; reflexivity).
    destruct (exec this env (SubmitLifeSignal _encryptedTimestamp) s)
      as [[[[] s1] ev]|e] eqn:Hrun.
    - unfold step. rewrite Hrun. cbn [state_after map fold_left].
      apply submitLifeSignal_ok in Hrun as (-> & _). simpl.
      rewrite decrypt_max. reflexivity.
    - unfold step. rewrite Hrun. reflexivity. }
  split; [apply Heq|]. rewrite Heq. apply fold_max_ge.
Qed.

End AggregateCleartext.

(** ** Stored numbers stay in range *)

Section Ranges.

Context {L : FHE.Lib} {K : Keccak256 FHE.bytes32}.
Variable this : address.

Lemma is_uint256_small x : 0 <= x <= 60 -> is_uint256 x.
Proof.
  intros [H0 H1]. split; [exact H0|].
  apply Z.le_trans with 60; [exact H1|]. vm_compute. discriminate.
Qed.

Lemma is_uint256_insert (f : Z -> Z) k v a :
  is_uint256 v -> (forall b, is_uint256 (f b)) -> is_uint256 (<[k := v]> f a).
Proof.
  intros Hv Hf. unfold insert, fn_insert. destruct (decide (k = a)); [exact Hv|apply Hf].
Qed.

Lemma storage_in_range_deploy env : valid_env env -> storage_in_range (deploy env).
Proof.
  intros (Ha & _ & _). unfold storage_in_range. simpl.
  split; [exact Ha|].
  split; [|split; [|split; [|split]]]; intros; apply is_uint256_small; simpl; lia.
Qed.

Lemma storage_in_range_step env c s :
  valid_env env -> valid_call c ->
  storage_in_range s -> storage_in_range (step this env c s).
Proof.
  intros (_ & _ & Hnow) Hc (Ho & Hcd & Hb & Hs & Hd & Hk).
  unfold storage_in_range.
  step_cases c;
    (split; [|split; [|split; [|split; [|split]]]]);
    try assumption; try (simpl in Hc; exact Hc).
  - (* openNewBatch *)
    split; [destruct Hb; lia|].
    match goal with H : (_ <=? _) = true |- _ => apply Z.leb_le in H; exact H end.
  - (* submitLifeSignal *)
    intros a. apply is_uint256_insert; assumption.
  - (* checkInheritanceTrigger *)
    intros a. apply is_uint256_insert; assumption.
  - intros k. unfold insert, fn_insert.
    destruct (decide (counterRequest s = k)); [exact Hb|apply Hk].
  - (* myCallback *)
    intros k. unfold insert, fn_insert.
    destruct (decide (requestId = k)); apply Hk.
Qed.

(** X16: in every reachable state the owner is a 160-bit address and the
    cooldown, the batch id, every recorded submission and request time and
    the batch id of every context are 256-bit values: no call stores a
    number its Solidity type cannot hold. *)
Theorem reachable_storage_in_range s (Hreach : reachable this s) :
  storage_in_range s.
Proof.
  induction Hreach as [env Hv|s env c _ IH Hv Hc];
    [apply storage_in_range_deploy, Hv|apply storage_in_range_step; assumption].
Qed.

End Ranges.

(** ** Requests overtaken by a life signal *)

Section StaleRequests.

Context {L : FHE.Lib} {K : Keccak256 FHE.bytes32}.
Variable this : address.

(** Handles are well founded: some measure ranks the result of [FHE.max]
    above its first operand; and the hash is collision free. *)
Variable rank : FHE.bytes32 -> nat.
Hypothesis rank_max :
  forall a b, (rank (FHE.toBytes32 a) < rank (FHE.toBytes32 (FHE.max a b)))%nat.
Hypothesis keccak_injective :
  forall cts1 cts2 a,
    keccak256_abi_encode cts1 a = keccak256_abi_encode cts2 a -> cts1 = cts2.

Lemma stale_mismatch env requestId s :
  stale this rank requestId s ->
  _hashCiphertexts this
    (ciphertexts env (encryptedLastSignalTimestamp s) (encryptedInactivityThreshold s))
  ≠ stateHash (decryptionContexts s requestId).
Proof.
  intros (_ & _ & h & rest & Hh & Hr) Heq. rewrite Hh in Heq.
  apply keccak_injective in Heq. unfold ciphertexts in Heq.
  injection Heq as Heq _. rewrite Heq in Hr. lia.
Qed.

Lemma stale_step env c requestId s :
  stale this rank requestId s -> stale this rank requestId (step this env c s).
Proof.
  intros Hst. pose proof Hst as (Hk & Hp & h & rest & Hh & Hr).
  unfold stale. step_cases c; try exact Hst.
  - (* submitLifeSignal *)
    split; [exact Hk|]. split; [exact Hp|]. exists h, rest. split; [exact Hh|].
    etransitivity; [exact Hr|apply rank_max].
  - (* checkInheritanceTrigger *)
    rewrite fn_lookup_insert_ne by lia.
    split; [lia|]. split; [exact Hp|]. exists h, rest. split; assumption.
  - (* myCallback *)
    destruct (decide (requestId0 = requestId)) as [->|Hne].
    + exfalso.
      match goal with
      | H : bool_decide (_ ≠ _) = false |- _ =>
          apply bool_decide_eq_false in H; apply H; apply (stale_mismatch env), Hst
      end.
    + rewrite fn_lookup_insert_ne by exact Hne.
      split; [exact Hk|]. split; [exact Hp|]. exists h, rest. split; assumption.
Qed.

Lemma stale_steps tr requestId s :
  stale this rank requestId s -> stale this rank requestId (steps this tr s).
Proof.
  revert s. induction tr as [|[env c] tr IH]; intros s Hst; [exact Hst|].
  simpl. apply IH, stale_step, Hst.
Qed.

(** X17: a request that a life signal has overtaken is lost for good: once a
    [submitLifeSignal] succeeded after a successful
    [checkInheritanceTrigger], then after any further run of calls every
    callback for that request still reverts with [StateMismatch] and its
    context is still unprocessed. *)
Theorem stale_request_never_processed env1 env2 t s s1 s2 ev1 ev2
    (Hcheck : checkInheritanceTrigger this env1 s = Ok (tt, s1, ev1))
    (Hsignal : submitLifeSignal env2 t s1 = Ok (tt, s2, ev2)) :
  forall tr env3 cleartexts proof,
    myCallback this env3 (counterRequest s) cleartexts proof (steps this tr s2)
      = Revert StateMismatch
    /\ processed (decryptionContexts (steps this tr s2) (counterRequest s)) = false.
Proof.
  apply checkInheritanceTrigger_ok in Hcheck as (-> & _).
  apply submitLifeSignal_ok in Hsignal as (-> & _).
  assert (Hst : stale this rank (counterRequest s)
            (set_encryptedLastSignalTimestamp
               (FHE.max (encryptedLastSignalTimestamp (after_check this env1 s))
                  (FHE.asEuint32 t))
               (set_lastSubmissionTime
                  (<[msg_sender env2 := block_timestamp env2]>
                     (lastSubmissionTime (after_check this env1 s)))
                  (after_check this env1 s)))).
  { unfold stale, after_check. simpl. rewrite fn_lookup_insert. simpl.
    split; [lia|]. split; [reflexivity|].
    unfold ciphertexts. do 2 eexists. split; [reflexivity|apply rank_max]. }
  intros tr env3 cleartexts proof.
  pose proof (stale_steps tr _ _ Hst) as Hst'.
  pose proof Hst' as (_ & Hp & _).
  split; [|exact Hp].
  rewrite myCallback_eq, Hp.
  rewrite bool_decide_eq_true_2 by (apply stale_mismatch, Hst'). reflexivity.
Qed.

End StaleRequests.

(** ** Providers and the cooldown setting at work *)

Section Settings.

Context {L : FHE.Lib} {K : Keccak256 FHE.bytes32}.
Variable this : address.

(** X18: removing a provider takes effect at once and touches nobody else:
    after the owner's [removeProvider] every life signal of that address
    reverts with [NotProvider], the flags of all other addresses and the
    owner are as before, and the owner's [addProvider] gives the flag back. *)
Theorem provider_removal_effective env provider s
    (Hown : msg_sender env = owner s) :
  let s1 := step this env (RemoveProvider provider) s in
  (forall env' t, msg_sender env' = provider ->
     submitLifeSignal env' t s1 = Revert NotProvider)
  /\ (forall a, a ≠ provider -> isProvider s1 a = isProvider s a)
  /\ owner s1 = owner s
  /\ isProvider (step this env (AddProvider provider) s1) provider = true.
Proof.
  unfold step, exec. rewrite removeProvider_eq.
  rewrite bool_decide_eq_false_2 by (intros Hn; exact (Hn Hown)).
  destruct (isProvider s provider) eqn:Hp; simpl.
  - split; [|split; [|split]].
    + intros env' t Hs. rewrite submitLifeSignal_eq. simpl.
      rewrite Hs, fn_lookup_insert. reflexivity.
    + intros a Ha. apply fn_lookup_insert_ne. congruence.
    + reflexivity.
    + rewrite addProvider_eq. simpl.
      rewrite bool_decide_eq_false_2 by (intros Hn; exact (Hn Hown)).
      rewrite fn_lookup_insert. simpl. apply fn_lookup_insert.
  - split; [|split; [|split]].
    + intros env' t Hs. rewrite submitLifeSignal_eq, Hs, Hp. reflexivity.
    + reflexivity.
    + reflexivity.
    + rewrite addProvider_eq.
      rewrite bool_decide_eq_false_2 by (intros Hn; exact (Hn Hown)).
      rewrite Hp. simpl. apply fn_lookup_insert.
Qed.

(** X19: the cooldown is read when a call is checked, not when the previous
    call was made: after the owner's [setCooldownSeconds n] a provider's
    wait is measured with [n] from the provider's last submission, so a
    larger [n] extends a wait that is running and [n = 0] ends it. *)
Theorem cooldown_change_applies_to_running_waits env n s
    (Hown : msg_sender env = owner s) :
  let s1 := step this env (SetCooldownSeconds n) s in
  exec this env (SetCooldownSeconds n) s
    = Ok (tt, s1, [CooldownSecondsUpdated (cooldownSeconds s) n])
  /\ cooldownSeconds s1 = n
  /\ (forall env' t,
        isProvider s (msg_sender env') = true -> paused s = false ->
        batchClosed s (currentBatchId s) = false ->
        (block_timestamp env' < lastSubmissionTime s (msg_sender env') + n ->
         lastSubmissionTime s (msg_sender env') + n <= MAX_UINT256 ->
         submitLifeSignal env' t s1 = Revert CooldownActive)
        /\ (lastSubmissionTime s (msg_sender env') + n <= block_timestamp env' ->
            is_uint256 (block_timestamp env') ->
            exists s2 ev, submitLifeSignal env' t s1 = Ok (tt, s2, ev))).
Proof.
  unfold step, exec. rewrite setCooldownSeconds_eq.
  rewrite bool_decide_eq_false_2 by (intros Hn; exact (Hn Hown)).
  simpl. split; [reflexivity|]. split; [reflexivity|].
  intros env' t Hp Hu Hc. rewrite submitLifeSignal_eq. simpl.
  rewrite Hp, Hu, Hc. simpl. split.
  - intros Hlt Hmax.
    rewrite (proj2 (Z.leb_le _ _) Hmax), (proj2 (Z.ltb_lt _ _) Hlt). reflexivity.
  - intros Hle [_ Hmax].
    rewrite (proj2 (Z.leb_le _ _)) by lia. rewrite (proj2 (Z.ltb_ge _ _)) by lia.
    eauto.
Qed.

End Settings.

(** * The model at work

    The theorems above, applied to the scenario states. *)

Import Symbolic Scenario.

(** C2: on the first accepted signal the aggregate is meant to be seeded
    with the wrapped timestamp.  Run on the freshly deployed contract:
    [_initIfNeeded] leaves the storage untouched although the aggregate is
    unset, and the call stores [FHE.max] of the unset handle and the wrapped
    timestamp, which is not the wrapped timestamp. *)
Theorem first_signal_not_seeded :
  FHE.isInitialized (encryptedLastSignalTimestamp deployed) = false
  /\ _initIfNeeded (encryptedLastSignalTimestamp deployed) (FHE.asEuint32 1000) deployed
     = Ok (tt, deployed, [])
  /\ submitLifeSignal (at_ alice 1000) 1000 deployed
     = Ok (tt, signalled, [SignalSubmitted alice 1])
  /\ encryptedLastSignalTimestamp signalled
     = FHE.max FHE.euint32_unset (FHE.asEuint32 1000)
  /\ encryptedLastSignalTimestamp signalled ≠ FHE.asEuint32 1000.
Proof.
  split; [reflexivity|]. split; [reflexivity|]. split; [reflexivity|].
  split; [reflexivity|]. discriminate.
Qed.

(** [check_then_callback] on the scenario: request and callback both at time
    1600, last signal 1000, threshold 500; the callback reports the trigger. *)
Lemma check_then_callback_witness :
  checkInheritanceTrigger contract (at_ bob 1600) armed
    = Ok (tt, requested, [DecryptionRequested 0 1])
  /\ FHE.checkSignatures 0 answer answer_proof = true
  /\ myCallback contract (at_ bob 1600) 0 answer answer_proof requested
     = Ok (tt, answered, [DecryptionCompleted 0 1 1000 500 true]).
Proof.
  split; [reflexivity|]. split; [reflexivity|].
  exact (proj1 (check_then_callback contract
                  SymbolicFacts.sym_decrypt_range SymbolicFacts.sym_decrypt_asEuint32
                  SymbolicFacts.sym_decrypt_sub SymbolicFacts.sym_decrypt_ge
                  (at_ bob 1600) (at_ bob 1600) answer answer_proof armed requested
                  [DecryptionRequested 0 1] eq_refl eq_refl eq_refl eq_refl)).
Defined.

(** Counterexample to C1 read for any callback time: the request is made at
    time 1499 and the callback arrives one second later, with nothing in
    between and with the oracle's answer and a proof that verifies; the
    trigger rebuilt at 1500 is not the requested one (even its cleartext
    differs) and the callback reverts. *)
Lemma callback_one_second_later_reverts :
  reachable contract armed
  /\ FHE.isInitialized (encryptedLastSignalTimestamp armed) = true
  /\ FHE.isInitialized (encryptedInactivityThreshold armed) = true
  /\ checkInheritanceTrigger contract (at_ bob 1499) armed
     = Ok (tt, requested_early, [DecryptionRequested 0 1])
  /\ FHE.checkSignatures 0 answer_early (sign 0 answer_early) = true
  /\ myCallback contract (at_ bob 1500) 0 answer_early (sign 0 answer_early) requested_early
     = Revert StateMismatch.
Proof. split; [exact ScenarioFacts.reachable_armed|]. repeat split; reflexivity. Qed.

(** Where the 32-bit arithmetic shows: with a last signal of 5000 and a
    request at 1600 the difference wraps around, and the callback reports the
    trigger although 1600 - 5000 is below the threshold over the integers. *)
Example future_signal_wraps :
  myCallback contract (at_ bob 1600) 0 answer_future (sign 0 answer_future) requested_future
    = Ok (tt, after_callback 0 requested_future,
          [DecryptionCompleted 0 1 5000 500 true])
  /\ (500 <=? 1600 - 5000) = false.
Proof. split; reflexivity. Qed.

(** [callback_after_signal_mismatch] on the scenario: Alice signals again
    between the request and its callback. *)
Lemma callback_after_signal_mismatch_witness :
  checkInheritanceTrigger contract (at_ bob 1600) armed
    = Ok (tt, requested, [DecryptionRequested 0 1])
  /\ submitLifeSignal (at_ alice 1700) 1700 requested
     = Ok (tt, resignalled, [SignalSubmitted alice 1])
  /\ myCallback contract (at_ bob 1700) 0 answer answer_proof resignalled
     = Revert StateMismatch
  /\ processed (decryptionContexts resignalled 0) = false.
Proof.
  split; [reflexivity|]. split; [reflexivity|].
  pose proof (callback_after_signal_mismatch contract
                SymbolicFacts.sym_keccak_injective SymbolicFacts.sym_max_fresh
                (at_ bob 1600) (at_ alice 1700) (at_ bob 1700) 1700
                answer answer_proof armed requested resignalled
                [DecryptionRequested 0 1] [SignalSubmitted alice 1]
                eq_refl eq_refl) as (_ & Hrun & Hflag & _).
  split; [exact Hrun|exact Hflag].
Defined.

(** [callback_replay] on the scenario: the answer to request 0 is delivered
    twice. *)
Lemma callback_replay_witness :
  myCallback contract (at_ bob 1600) 0 answer answer_proof requested
    = Ok (tt, answered, [DecryptionCompleted 0 1 1000 500 true])
  /\ myCallback contract (at_ bob 1600) 0 answer answer_proof answered
     = Revert ReplayDetected
  /\ step contract (at_ bob 1600) (MyCallback 0 answer answer_proof) answered = answered.
Proof.
  split; [reflexivity|].
  pose proof (callback_replay contract SymbolicFacts.sym_keccak_nonzero
                (at_ bob 1600) 0 answer answer_proof requested answered
                [DecryptionCompleted 0 1 1000 500 true] eq_refl)
    as (_ & _ & Hagain & _ & _).
  exact (Hagain (at_ bob 1600) answer answer_proof).
Defined.

(** [callback_unknown_request] on the scenario: no request was made yet and a
    callback names id 7. *)
Lemma callback_unknown_request_witness :
  reachable contract armed
  /\ ~ (0 <= 7 < counterRequest armed)
  /\ myCallback contract (at_ bob 1600) 7 answer answer_proof armed = Revert StateMismatch.
Proof.
  assert (Hunknown : ~ (0 <= 7 < counterRequest armed))
    by (intros [_ H]; vm_compute in H; discriminate H).
  split; [exact ScenarioFacts.reachable_armed|]. split; [exact Hunknown|].
  exact (proj2 (proj2 (proj2
           (callback_unknown_request contract SymbolicFacts.sym_keccak_nonzero
              (at_ bob 1600) 7 answer answer_proof armed
              ScenarioFacts.reachable_armed Hunknown)))).
Defined.

(** Counterexample to C5 as stated: the contract is paused and the threshold was
    never set; the call fails with [Paused]. *)
Lemma paused_checked_before_initialized :
  reachable contract paused_unset
  /\ paused paused_unset = true
  /\ FHE.isInitialized (encryptedInactivityThreshold paused_unset) = false
  /\ checkInheritanceTrigger contract (at_ bob 100) paused_unset = Revert Paused
  /\ checkInheritanceTrigger contract (at_ bob 100) paused_unset ≠ Revert InvalidThreshold.
Proof.
  split; [exact ScenarioFacts.reachable_paused_unset|].
  repeat split; try reflexivity. discriminate.
Qed.

(** [checkInheritanceTrigger_check_order] on the scenario: on the armed
    contract every check passes at time 1600. *)
Lemma checkInheritanceTrigger_check_order_witness :
  is_uint256 1600
  /\ checkInheritanceTrigger contract (at_ bob 1600) armed
     = Ok (tt, requested, [DecryptionRequested 0 1]).
Proof.
  assert (Hnow : is_uint256 (block_timestamp (at_ bob 1600)))
    by (split; vm_compute; discriminate).
  split; [exact Hnow|].
  pose proof (checkInheritanceTrigger_check_order contract (at_ bob 1600) armed Hnow)
    as (_ & _ & _ & _ & Hok).
  apply Hok; [reflexivity|vm_compute; discriminate|reflexivity|reflexivity].
Defined.

(** Counterexample to C6 as stated: Alice is a provider, the contract is
    unpaused and [now < lastSubmissionTime + cooldownSeconds], yet the call
    does not fail with [CooldownActive]: the sum does not fit in 256 bits. *)
Lemma cooldown_sum_overflows :
  reachable contract overflowing
  /\ isProvider overflowing alice = true
  /\ paused overflowing = false
  /\ 2000 < lastSubmissionTime overflowing alice + cooldownSeconds overflowing
  /\ submitLifeSignal (at_ alice 2000) 2000 overflowing = Revert PanicOverflow
  /\ submitLifeSignal (at_ alice 2000) 2000 overflowing ≠ Revert CooldownActive.
Proof.
  split; [exact ScenarioFacts.reachable_overflowing|].
  repeat split; try reflexivity. discriminate.
Qed.

(** [submitLifeSignal_check_order] on the scenario: Alice signals at 1000,
    again at 1030 and again at 1060,
    with the cooldown of 60 seconds. *)
Lemma submitLifeSignal_check_order_witness :
  is_uint256 1000
  /\ submitLifeSignal (at_ alice 1000) 1000 deployed
     = Ok (tt, signalled, [SignalSubmitted alice 1])
  /\ submitLifeSignal (at_ alice 1030) 1030 signalled = Revert CooldownActive
  /\ exists s3 ev3, submitLifeSignal (at_ alice 1060) 1060 signalled = Ok (tt, s3, ev3).
Proof.
  assert (Hnow : is_uint256 (block_timestamp (at_ alice 1000)))
    by (split; vm_compute; discriminate).
  split; [exact Hnow|].
  pose proof (submitLifeSignal_check_order (at_ alice 1000) 1000 deployed Hnow)
    as (_ & _ & _ & _ & Hok).
  destruct Hok as [Hfirst Hnext];
    [reflexivity|reflexivity|vm_compute; discriminate|reflexivity|].
  split; [exact Hfirst|].
  destruct (Hnext 1030 1030 1060 1060) as (Hsecond & _ & Hthird);
    [reflexivity|vm_compute; discriminate|split; vm_compute; discriminate|].
  split; [exact Hsecond|exact Hthird].
Defined.

(** [batch_lifecycle] on the scenario: Alice opens the second batch. *)
Lemma batch_lifecycle_witness :
  currentBatchId deployed = 1
  /\ openNewBatch (at_ alice 5) deployed = Ok (tt, opened, [BatchOpened 2])
  /\ currentBatchId opened = 2
  /\ batchClosed opened 2 = false.
Proof.
  pose proof (batch_lifecycle contract) as (Hinit & _ & _ & Hopen & _).
  split; [exact (Hinit (at_ alice 1))|].
  assert (Hrun : openNewBatch (at_ alice 5) deployed = Ok (tt, opened, [BatchOpened 2]))
    by reflexivity.
  split; [exact Hrun|].
  destruct (Hopen _ _ _ _ Hrun) as (Hid & Hflag & _).
  split; [exact Hid|exact Hflag].
Defined.

(** [provider_updates_idempotent] on the scenario: Alice, owner and provider
    since deployment, adds herself
    again and removes Bob, who is no provider. *)
Lemma provider_updates_idempotent_witness :
  msg_sender (at_ alice 5) = owner deployed
  /\ addProvider (at_ alice 5) alice deployed = Ok (tt, deployed, [])
  /\ removeProvider (at_ alice 5) bob deployed = Ok (tt, deployed, []).
Proof.
  split; [reflexivity|]. split.
  - exact (proj1 (provider_updates_idempotent (at_ alice 5) alice deployed eq_refl)).
  - exact (proj1 (proj2 (provider_updates_idempotent (at_ alice 5) bob deployed eq_refl))).
Defined.

(** [transferOwnership_frame] on the scenario: Alice transfers the ownership
    to the zero address and
    can no longer pause the contract. *)
Lemma transferOwnership_frame_witness :
  msg_sender (at_ alice 2) = owner deployed
  /\ transferOwnership (at_ alice 2) 0 deployed
     = Ok (tt, renounced, [OwnershipTransferred alice 0])
  /\ isProvider renounced alice = true
  /\ isProvider renounced 0 = false
  /\ exec contract (at_ alice 4) (SetPaused true) renounced = Revert NotOwner.
Proof.
  pose proof (transferOwnership_frame contract (at_ alice 2) 0 deployed eq_refl)
    as (Hrun & _ & Hold & Hnew & Hgone).
  split; [reflexivity|]. split; [exact Hrun|].
  split; [exact Hold|]. split; [exact Hnew|].
  refine (proj2 (Hgone eq_refl [] (at_ alice 4) (SetPaused true) _ _ eq_refl)).
  - constructor.
  - repeat split; vm_compute; discriminate.
Defined.

(** ** The further properties on the scenario states *)

Module SymbolicFacts2.

Import Symbolic SymbolicRank.

Lemma sym_decrypt_max (a b : handle) :
  cleartext (FHE.max a b) = Z.max (cleartext a) (cleartext b).
Proof. reflexivity. Qed.

Lemma sym_rank_max (a b : handle) :
  (size (FHE.toBytes32 a) < size (FHE.toBytes32 (FHE.max a b)))%nat.
Proof. simpl. lia. Qed.

End SymbolicFacts2.

Module ScenarioFacts2.

Import Symbolic Scenario Scenario2.

Lemma reachable_closed : reachable contract closed.
Proof.
  apply reachable_step; [apply ScenarioFacts.reachable_deployed| |];
    ScenarioFacts.valid_tac.
Qed.

End ScenarioFacts2.

Import Scenario2.

(** [non_owner_cannot_reconfigure]: Bob, who is not the owner, tries to
    pause the fresh contract. *)
Lemma non_owner_cannot_reconfigure_witness :
  msg_sender (at_ bob 5) ≠ owner deployed
  /\ exec contract (at_ bob 5) (SetPaused true) deployed = Revert NotOwner
  /\ paused (step contract (at_ bob 5) (SetPaused true) deployed) = paused deployed.
Proof.
  assert (Hother : msg_sender (at_ bob 5) ≠ owner deployed) by discriminate.
  pose proof (non_owner_cannot_reconfigure contract (at_ bob 5) (SetPaused true)
                deployed Hother) as (_ & _ & Hp & _ & _ & _ & _ & Hrev).
  split; [exact Hother|]. split; [exact (Hrev eq_refl)|exact Hp].
Defined.

(** [aggregate_changes_only_by_signal]: Alice's first signal is the call that
    moved the aggregate. *)
Lemma aggregate_changes_only_by_signal_witness :
  encryptedLastSignalTimestamp (step contract (at_ alice 1000) (SubmitLifeSignal 1000) deployed)
  ≠ encryptedLastSignalTimestamp deployed
  /\ exists t,
       SubmitLifeSignal 1000 = SubmitLifeSignal t
       /\ isProvider deployed alice = true.
Proof.
  assert (Hmoved : encryptedLastSignalTimestamp
                     (step contract (at_ alice 1000) (SubmitLifeSignal 1000) deployed)
                   ≠ encryptedLastSignalTimestamp deployed) by discriminate.
  split; [exact Hmoved|].
  destruct (aggregate_changes_only_by_signal contract (at_ alice 1000)
              (SubmitLifeSignal 1000) deployed Hmoved) as (t & Hc & Hp & _).
  exists t. split; [exact Hc|exact Hp].
Defined.

(** [every_change_is_logged]: Alice adds herself again, silently. *)
Lemma every_change_is_logged_witness :
  exec contract (at_ alice 5) (AddProvider alice) deployed = Ok (tt, deployed, [])
  /\ (length (@nil Event) <= 1)%nat.
Proof.
  split; [reflexivity|].
  exact (proj1 (every_change_is_logged contract (at_ alice 5) (AddProvider alice)
                  deployed deployed [] eq_refl)).
Defined.

(** [ownership_round_trip]: Alice hands over to Bob, Bob hands back. *)
Lemma ownership_round_trip_witness :
  msg_sender (at_ alice 2) = owner deployed
  /\ bob ≠ owner deployed
  /\ owner handed_over = bob
  /\ exec contract (at_ alice 2) OpenNewBatch handed_over = Revert NotOwner
  /\ step contract (at_ bob 3) (TransferOwnership alice) handed_over = deployed.
Proof.
  assert (Hdiff : bob ≠ owner deployed) by discriminate.
  pose proof (ownership_round_trip contract (at_ alice 2) (at_ bob 3) bob deployed
                eq_refl eq_refl Hdiff) as (Ho & Hrev & Hback).
  split; [reflexivity|]. split; [exact Hdiff|]. split; [exact Ho|].
  split; [exact (Hrev OpenNewBatch eq_refl)|exact Hback].
Defined.

(** [paused_blocks]: on the paused contract Bob's life signal is refused as
    coming from a non-provider, Alice's as paused. *)
Lemma paused_blocks_witness :
  paused paused_unset = true
  /\ exec contract (at_ bob 100) (SubmitLifeSignal 100) paused_unset = Revert NotProvider
  /\ exec contract (at_ alice 100) (SubmitLifeSignal 100) paused_unset = Revert Paused
  /\ exec contract (at_ alice 100) OpenNewBatch paused_unset = Revert Paused.
Proof.
  split; [reflexivity|]. split; [|split].
  - exact (proj1 (paused_blocks contract (at_ bob 100) (SubmitLifeSignal 100)
                    paused_unset eq_refl eq_refl)).
  - exact (proj1 (paused_blocks contract (at_ alice 100) (SubmitLifeSignal 100)
                    paused_unset eq_refl eq_refl)).
  - exact (proj1 (paused_blocks contract (at_ alice 100) OpenNewBatch
                    paused_unset eq_refl eq_refl)).
Defined.

(** [callback_open_to_anyone]: Carol delivers the answer to Bob's request,
    on a contract that was paused in the meantime. *)
Lemma callback_open_to_anyone_witness :
  block_timestamp (at_ carol 1600) = block_timestamp (at_ bob 1600)
  /\ myCallback contract (at_ carol 1600) 0 answer answer_proof requested
     = Ok (tt, answered, [DecryptionCompleted 0 1 1000 500 true])
  /\ myCallback contract (at_ bob 1600) 0 answer answer_proof (set_paused true requested)
     = Ok (tt, set_paused true answered, [DecryptionCompleted 0 1 1000 500 true]).
Proof.
  pose proof (callback_open_to_anyone contract (at_ bob 1600) (at_ carol 1600) 0
                answer answer_proof requested eq_refl) as (Hany & Hpause & _).
  split; [reflexivity|]. split; [exact Hany|exact (Hpause true)].
Defined.

(** [closed_batch_stays_closed]: batch 1 is closed and stays so when batch 2
    is opened. *)
Lemma closed_batch_stays_closed_witness :
  reachable contract closed
  /\ batchClosed closed 1 = true
  /\ batchClosed (steps contract [(at_ alice 6, OpenNewBatch)] closed) 1 = true
  /\ currentBatchId (steps contract [(at_ alice 6, OpenNewBatch)] closed) = 2.
Proof.
  split; [exact ScenarioFacts2.reachable_closed|]. split; [reflexivity|].
  split; [|reflexivity].
  exact (proj2 (closed_batch_stays_closed contract closed 1
                  ScenarioFacts2.reachable_closed eq_refl)
               [(at_ alice 6, OpenNewBatch)]).
Defined.

(** [closed_batch_gates]: with batch 1 closed Alice can neither signal nor
    request, but she can set the threshold. *)
Lemma closed_batch_gates_witness :
  batchClosed closed (currentBatchId closed) = true
  /\ (exists e, submitLifeSignal (at_ alice 1000) 1000 closed = Revert e)
  /\ setInactivityThreshold (at_ alice 1000) 500 closed
     = Ok (tt, set_encryptedInactivityThreshold (FHE.asEuint32 500) closed,
           [ThresholdSet 1 500]).
Proof.
  pose proof (closed_batch_gates contract (at_ alice 1000) closed eq_refl)
    as (Hsig & _ & Hown).
  split; [reflexivity|]. split; [exact (Hsig 1000)|].
  exact (proj1 (Hown eq_refl eq_refl) 500 eq_refl).
Defined.

(** [threshold_last_write_wins]: the threshold 500 is replaced by 800. *)
Lemma threshold_last_write_wins_witness :
  setInactivityThreshold (at_ alice 1001) 500 signalled
    = Ok (tt, armed, [ThresholdSet 1 500])
  /\ setInactivityThreshold (at_ alice 1002) 800 armed
     = setInactivityThreshold (at_ alice 1002) 800 signalled.
Proof.
  split; [reflexivity|].
  exact (proj2 (threshold_last_write_wins (at_ alice 1001) (at_ alice 1002) 500 800
                  signalled armed [ThresholdSet 1 500] eq_refl)).
Defined.

(** [first_call_waits_cooldown]: thirty seconds into the life of the chain
    nobody can signal or request, with the cooldown of sixty. *)
Lemma first_call_waits_cooldown_witness :
  is_uint256 (cooldownSeconds deployed)
  /\ block_timestamp (at_ alice 30) < cooldownSeconds deployed
  /\ submitLifeSignal (at_ alice 30) 30 deployed = Revert CooldownActive
  /\ checkInheritanceTrigger contract (at_ alice 30) deployed = Revert CooldownActive.
Proof.
  assert (Hcd : is_uint256 (cooldownSeconds deployed))
    by (split; vm_compute; discriminate).
  assert (Hearly : block_timestamp (at_ alice 30) < cooldownSeconds deployed)
    by reflexivity.
  pose proof (first_call_waits_cooldown contract (at_ alice 30) deployed Hcd Hearly
                eq_refl) as (Hsig & Hreq).
  split; [exact Hcd|]. split; [exact Hearly|].
  split; [exact (Hsig eq_refl eq_refl 30)|exact (Hreq eq_refl)].
Defined.

(** [cooldown_buckets_independent]: Alice's signal at 1000 moves her
    submission time only. *)
Lemma cooldown_buckets_independent_witness :
  submitLifeSignal (at_ alice 1000) 1000 deployed
    = Ok (tt, signalled, [SignalSubmitted alice 1])
  /\ lastSubmissionTime signalled alice = 1000
  /\ lastSubmissionTime signalled bob = lastSubmissionTime deployed bob
  /\ lastDecryptionRequestTime signalled = lastDecryptionRequestTime deployed.
Proof.
  split; [reflexivity|].
  destruct (proj1 (cooldown_buckets_independent contract (at_ alice 1000) deployed
                     signalled [SignalSubmitted alice 1]) 1000 eq_refl)
    as (Hme & Hother & Hreq & _).
  split; [exact Hme|]. split; [|exact Hreq].
  apply Hother. discriminate.
Defined.

(** [context_binding_immutable]: request 0 keeps its batch and its hash when
    it is answered and a second request is made. *)
Lemma context_binding_immutable_witness :
  0 < counterRequest requested
  /\ batchId (decryptionContexts requested_again 0) = batchId (decryptionContexts requested 0)
  /\ stateHash (decryptionContexts requested_again 0)
     = stateHash (decryptionContexts requested 0).
Proof.
  assert (Hissued : 0 < counterRequest requested) by reflexivity.
  split; [exact Hissued|].
  destruct (proj1 (context_binding_immutable contract requested 0 Hissued)
              [(at_ bob 1600, MyCallback 0 answer answer_proof);
               (at_ carol 1600, CheckInheritanceTrigger)]) as (Hb & Hh & _).
  split; [exact Hb|exact Hh].
Defined.

(** [callback_error_order]: a truncated answer with its own valid proof is
    refused while decoding; a wrong proof is refused before. *)
Lemma callback_error_order_witness :
  FHE.checkSignatures 0 (firstn 95 answer) (sign 0 (firstn 95 answer)) = true
  /\ (length (firstn 95 answer) < 96)%nat
  /\ myCallback contract (at_ bob 1600) 0 (firstn 95 answer) (sign 0 (firstn 95 answer))
       requested = Revert RevertDecode
  /\ myCallback contract (at_ bob 1600) 0 answer [] requested = Revert DecryptionFailed.
Proof.
  assert (Hlen : (length (firstn 95 answer) < 96)%nat) by (vm_compute; lia).
  pose proof (callback_error_order contract (at_ bob 1600) 0 (firstn 95 answer)
                (sign 0 (firstn 95 answer)) requested) as (_ & _ & _ & Hshort & _).
  pose proof (callback_error_order contract (at_ bob 1600) 0 answer [] requested)
    as (_ & _ & Hproof & _).
  split; [reflexivity|]. split; [exact Hlen|].
  split; [exact (Hshort eq_refl eq_refl eq_refl Hlen)|exact (Hproof eq_refl eq_refl eq_refl)].
Defined.

(** [callback_decoding]: the answer to request 0 with one more byte at the
    end, and the same with 2 as its third word. *)
Lemma callback_decoding_witness :
  myCallback contract (at_ bob 1600) 0 (answer ++ [x2a]) (sign 0 (answer ++ [x2a])) requested
    = Ok (tt, answered, [DecryptionCompleted 0 1 1000 500 true])
  /\ myCallback contract (at_ bob 1600) 0
       (abi_encode_uint256 1000 ++ abi_encode_uint256 500 ++ abi_encode_uint256 2 ++ [])
       (sign 0 (abi_encode_uint256 1000 ++ abi_encode_uint256 500
                  ++ abi_encode_uint256 2 ++ []))
       requested
     = Revert RevertDecode.
Proof.
  assert (H1000 : is_uint256 1000) by (split; vm_compute; discriminate).
  assert (H500 : is_uint256 500) by (split; vm_compute; discriminate).
  assert (H1 : is_uint256 1) by (split; vm_compute; discriminate).
  assert (H2 : is_uint256 2) by (split; vm_compute; discriminate).
  split.
  - exact (callback_decoding contract (at_ bob 1600) 0 (sign 0 (answer ++ [x2a]))
             requested 1000 500 1 [x2a] H1000 H500 H1 eq_refl eq_refl eq_refl).
  - exact (callback_decoding contract (at_ bob 1600) 0
             (sign 0 (abi_encode_uint256 1000 ++ abi_encode_uint256 500
                        ++ abi_encode_uint256 2 ++ []))
             requested 1000 500 2 [] H1000 H500 H2 eq_refl eq_refl eq_refl).
Defined.

(** [aggregate_cleartext_is_max]: signals 1000 and 700 are accepted, 9999 is
    refused by the cooldown; the aggregate decrypts to 1000. *)
Lemma aggregate_cleartext_is_max_witness :
  accepted_signals contract
    [(at_ alice 1000, SubmitLifeSignal 1000);
     (at_ alice 1030, SubmitLifeSignal 9999);
     (at_ alice 1100, SubmitLifeSignal 700)] deployed = [1000; 700]
  /\ cleartext (encryptedLastSignalTimestamp
                  (steps contract
                     [(at_ alice 1000, SubmitLifeSignal 1000);
                      (at_ alice 1030, SubmitLifeSignal 9999);
                      (at_ alice 1100, SubmitLifeSignal 700)] deployed)) = 1000.
Proof.
  split; [reflexivity|].
  exact (proj1 (aggregate_cleartext_is_max contract SymbolicFacts2.sym_decrypt_max
                  [(at_ alice 1000, SubmitLifeSignal 1000);
                   (at_ alice 1030, SubmitLifeSignal 9999);
                   (at_ alice 1100, SubmitLifeSignal 700)] deployed)).
Defined.

(** [reachable_storage_in_range] on the armed contract. *)
Lemma reachable_storage_in_range_witness :
  reachable contract armed /\ storage_in_range armed.
Proof.
  split; [exact ScenarioFacts.reachable_armed|].
  exact (reachable_storage_in_range contract armed ScenarioFacts.reachable_armed).
Defined.

(** [stale_request_never_processed]: after Alice's signal at 1700 the answer
    to request 0 is refused, also after a new batch was opened. *)
Lemma stale_request_never_processed_witness :
  checkInheritanceTrigger contract (at_ bob 1600) armed
    = Ok (tt, requested, [DecryptionRequested 0 1])
  /\ submitLifeSignal (at_ alice 1700) 1700 requested
     = Ok (tt, resignalled, [SignalSubmitted alice 1])
  /\ myCallback contract (at_ bob 1600) 0 answer answer_proof
       (steps contract [(at_ alice 1800, OpenNewBatch)] resignalled)
     = Revert StateMismatch.
Proof.
  split; [reflexivity|]. split; [reflexivity|].
  exact (proj1 (stale_request_never_processed contract SymbolicRank.size
                  SymbolicFacts2.sym_rank_max SymbolicFacts.sym_keccak_injective
                  (at_ bob 1600) (at_ alice 1700) 1700 armed requested resignalled
                  [DecryptionRequested 0 1] [SignalSubmitted alice 1] eq_refl eq_refl
                  [(at_ alice 1800, OpenNewBatch)] (at_ bob 1600) answer answer_proof)).
Defined.

(** [provider_removal_effective]: Alice removes Bob, whom she had added. *)
Lemma provider_removal_effective_witness :
  msg_sender (at_ alice 1002) = owner two_providers
  /\ isProvider two_providers bob = true
  /\ submitLifeSignal (at_ bob 2000) 2000
       (step contract (at_ alice 1002) (RemoveProvider bob) two_providers)
     = Revert NotProvider
  /\ isProvider (step contract (at_ alice 1002) (RemoveProvider bob) two_providers) alice
     = isProvider two_providers alice.
Proof.
  pose proof (provider_removal_effective contract (at_ alice 1002) bob two_providers
                eq_refl) as (Hgone & Hothers & _).
  split; [reflexivity|]. split; [reflexivity|].
  split; [exact (Hgone (at_ bob 2000) 2000 eq_refl)|].
  apply Hothers. discriminate.
Defined.

(** [cooldown_change_applies_to_running_waits]: thirty seconds after her
    signal Alice sets the cooldown to 0 and signals again at once. *)
Lemma cooldown_change_applies_to_running_waits_witness :
  msg_sender (at_ alice 1030) = owner signalled
  /\ submitLifeSignal (at_ alice 1030) 1030 signalled = Revert CooldownActive
  /\ exists s2 ev,
       submitLifeSignal (at_ alice 1030) 1030
         (step contract (at_ alice 1030) (SetCooldownSeconds 0) signalled)
       = Ok (tt, s2, ev).
Proof.
  pose proof (cooldown_change_applies_to_running_waits contract (at_ alice 1030) 0
                signalled eq_refl) as (_ & _ & Hwait).
  split; [reflexivity|]. split; [reflexivity|].
  apply (proj2 (Hwait (at_ alice 1030) 1030 eq_refl eq_refl eq_refl)).
  - vm_compute. discriminate.
  - split; vm_compute; discriminate.
Defined.
